(** * Room registry and router of the text-sync backend (app.py)

    A shallow embedding of the Socket.IO handlers of [src/app.py]:
    [handle_connect], [handle_disconnect], [on_join], [handle_text] and
    [handle_live_control].  The global dict [active_rooms] is threaded
    through the handlers explicitly; everything a handler asks of the
    transport ([emit], [socketio.emit], [join_room]) is recorded, in program
    order, as a list of effects.  [print] calls are logging only and are
    left out. *)

From stdpp Require Import base option list strings gmap.

(** ** Data model *)

(** An event payload [data]: a JSON object whose fields are strings.
    [data.get(key)] is [data !! key], with [None] for a missing key. *)
Abbreviation payload := (gmap string string).

(** A room: [{'senders': [...], 'receivers': [...]}], two Python lists of
    connection ids ([request.sid]). *)
Record Room := mkRoom { senders : list string; receivers : list string }.

(** [active_rooms]: a Python dict, kept as an association list in insertion
    order (the order [list(active_rooms.keys())] iterates in). *)
Abbreviation registry := (list (string * Room)).

(** Where an event is sent: the requesting connection (a bare [emit]), or
    a broadcast group ([to=...]) with an optional [skip_sid]. *)
Inductive target :=
| ToSid (sid : string)
| ToGroup (group : string) (skip_sid : option string).

(** The events the handlers emit, with their payloads. *)
Inductive event :=
| Ev_error (message : string)
| Ev_room_joined (message type : string)
    (room_active has_sender has_receiver : bool)
| Ev_room_status (status message : string)
| Ev_receive_text (data : payload)
| Ev_receive_live_control (data : payload).

(** What a handler asks of the transport. [JoinGroup sid g] is
    flask_socketio's [join_room(g)] for the requesting connection. *)
Inductive effect :=
| Emit (to : target) (ev : event)
| JoinGroup (sid group : string).

(** Inbound Socket.IO events. *)
Inductive request :=
| Connect (sid : string)
| Disconnect (sid : string)
| JoinRoom (sid : string) (data : payload)
| SendText (sid : string) (data : payload)
| SendLiveControl (sid : string) (data : payload).

(** ** Python primitives *)

(** Truthiness of a string and of a list. *)
Definition str_truthy (s : string) : bool :=
  match s with EmptyString => false | _ => true end.

Definition list_truthy {A} (l : list A) : bool :=
  match l with [] => false | _ => true end.

(** [l.remove(x)]: drops the first occurrence of [x]. *)
Fixpoint remove_first (x : string) (l : list string) : list string :=
  match l with
  | [] => []
  | y :: l' => if decide (y = x) then l' else y :: remove_first x l'
  end.

(** [active_rooms[code]] (and [code in active_rooms], when it is [Some]). *)
Fixpoint reg_get (code : string) (reg : registry) : option Room :=
  match reg with
  | [] => None
  | (k, r) :: rest => if decide (k = code) then Some r else reg_get code rest
  end.

(** Writing to the entry of [code]: an existing key keeps its position, a
    new key goes last. *)
Fixpoint reg_set (code : string) (room : Room) (reg : registry) : registry :=
  match reg with
  | [] => [(code, room)]
  | (k, r) :: rest =>
      if decide (k = code) then (k, room) :: rest
      else (k, r) :: reg_set code room rest
  end.

(** [del active_rooms[code]]. *)
Fixpoint reg_del (code : string) (reg : registry) : registry :=
  match reg with
  | [] => []
  | (k, r) :: rest =>
      if decide (k = code) then rest else (k, r) :: reg_del code rest
  end.

(** [list(active_rooms.keys())]. *)
Definition reg_keys (reg : registry) : list string := reg.*1.

(** The receiver-only broadcast group, [f"{room_code}_recv"]. *)
Definition recv_group (room_code : string) : string := room_code +:+ "_recv".

(** ** Handlers *)

Definition handle_connect (reg : registry) (sid : string)
  : registry * list effect := (reg, []).

(** One iteration of the loop of [handle_disconnect], for the key
    [room_code] whose entry is [room].  [room] aliases the entry of the
    dict, so the lists it ends with are written back to the registry. *)
Definition disconnect_room (sid room_code : string) (room : Room)
    (reg : registry) : registry * list effect :=
  let was_sender := bool_decide (sid ∈ senders room) in
  let was_receiver := bool_decide (sid ∈ receivers room) in
  let room1 :=
    if was_sender
    then mkRoom (remove_first sid (senders room)) (receivers room)
    else room in
  let effs :=
    if was_sender && list_truthy (receivers room1)
    then [Emit (ToGroup (recv_group room_code) None)
            (Ev_room_status "sender_left" "Sender has left the room")]
    else [] in
  let room2 :=
    if was_receiver
    then mkRoom (senders room1) (remove_first sid (receivers room1))
    else room1 in
  let reg2 := reg_set room_code room2 reg in
  if negb (list_truthy (senders room2)) && negb (list_truthy (receivers room2))
  then (reg_del room_code reg2, effs)
  else (reg2, effs).

(** The loop over the snapshot of the keys.  [None] is the [KeyError] of
    [active_rooms[room_code]]. *)
Fixpoint disconnect_loop (sid : string) (keys : list string) (reg : registry)
  : option (registry * list effect) :=
  match keys with
  | [] => Some (reg, [])
  | room_code :: keys' =>
      match reg_get room_code reg with
      | None => None
      | Some room =>
          let '(reg1, effs1) := disconnect_room sid room_code room reg in
          match disconnect_loop sid keys' reg1 with
          | None => None
          | Some (reg2, effs2) => Some (reg2, effs1 ++ effs2)
          end
      end
  end.

Definition handle_disconnect (reg : registry) (sid : string)
  : option (registry * list effect) :=
  disconnect_loop sid (reg_keys reg) reg.

Definition invalid_join (sid : string) : list effect :=
  [Emit (ToSid sid) (Ev_error "Invalid room code or device type")].

(** [on_join] past its guard, with [room_code] and [device_type] truthy. *)
Definition join_checked (reg : registry) (sid room_code device_type : string)
  : registry * list effect :=
  (* Initialize room if it doesn't exist *)
  let reg1 :=
    match reg_get room_code reg with
    | Some _ => reg
    | None => reg ++ [(room_code, mkRoom [] [])]
    end in
  let room := default (mkRoom [] []) (reg_get room_code reg) in
  (* Add to appropriate list; [room] aliases the entry of [reg1] *)
  let '(room1, reg2, subs) :=
    if decide (device_type = "sender") then
      let '(room1, reg2) :=
        if bool_decide (sid ∈ senders room) then (room, reg1)
        else
          let room1 := mkRoom (senders room ++ [sid]) (receivers room) in
          (room1, reg_set room_code room1 reg1) in
      (room1, reg2, [JoinGroup sid room_code])
    else if decide (device_type = "receiver") then
      let '(room1, reg2) :=
        if bool_decide (sid ∈ receivers room) then (room, reg1)
        else
          let room1 := mkRoom (senders room) (receivers room ++ [sid]) in
          (room1, reg_set room_code room1 reg1) in
      (room1, reg2,
       [JoinGroup sid room_code; JoinGroup sid (recv_group room_code)])
    else (room, reg1, []) in
  (* Check if BOTH sender and receiver are present *)
  let has_sender := bool_decide (0 < length (senders room1)) in
  let has_receiver := bool_decide (0 < length (receivers room1)) in
  let room_active := has_sender && has_receiver in
  (reg2,
   subs
   ++ [Emit (ToSid sid)
         (Ev_room_joined (device_type +:+ " joined") device_type
            room_active has_sender has_receiver)]
   ++ (if room_active
       then [Emit (ToGroup room_code (Some sid))
               (Ev_room_status "active" "Both sender and receiver connected")]
       else [])).

Definition on_join (reg : registry) (sid : string) (data : payload)
  : registry * list effect :=
  match data !! "code", data !! "type" with
  | Some room_code, Some device_type =>
      if negb (str_truthy room_code) || negb (str_truthy device_type)
      then (reg, invalid_join sid)
      else join_checked reg sid room_code device_type
  | _, _ => (reg, invalid_join sid)
  end.

(** [room_code in active_rooms and active_rooms[room_code]['receivers']]. *)
Definition room_has_receivers (reg : registry) (room_code : string) : bool :=
  match reg_get room_code reg with
  | Some room => list_truthy (receivers room)
  | None => false
  end.

Definition no_receivers (sid : string) : list effect :=
  [Emit (ToSid sid) (Ev_error "No receivers in room")].

Definition handle_text (reg : registry) (sid : string) (data : payload)
  : registry * list effect :=
  let text := default "" (data !! "text") in
  match data !! "code" with
  | Some room_code =>
      if str_truthy room_code && str_truthy text then
        if room_has_receivers reg room_code
        then (reg, [Emit (ToGroup (recv_group room_code) None)
                      (Ev_receive_text data)])
        else (reg, no_receivers sid)
      else (reg, [])
  | None => (reg, [])
  end.

Definition invalid_live_control (sid : string) : list effect :=
  [Emit (ToSid sid) (Ev_error "Invalid live control payload")].

Definition handle_live_control (reg : registry) (sid : string)
    (data : payload) : registry * list effect :=
  match data !! "code", data !! "control" with
  | Some room_code, Some control =>
      if negb (str_truthy room_code) || negb (str_truthy control)
      then (reg, invalid_live_control sid)
      else if room_has_receivers reg room_code
      then (reg, [Emit (ToGroup (recv_group room_code) None)
                    (Ev_receive_live_control data)])
      else (reg, no_receivers sid)
  | _, _ => (reg, invalid_live_control sid)
  end.

(** ** The server as a state machine *)

Definition step (reg : registry) (req : request)
  : option (registry * list effect) :=
  match req with
  | Connect sid => Some (handle_connect reg sid)
  | Disconnect sid => handle_disconnect reg sid
  | JoinRoom sid data => Some (on_join reg sid data)
  | SendText sid data => Some (handle_text reg sid data)
  | SendLiveControl sid data => Some (handle_live_control reg sid data)
  end.

(** Serving a sequence of requests, collecting every effect. *)
Fixpoint run (reg : registry) (reqs : list request)
  : option (registry * list effect) :=
  match reqs with
  | [] => Some (reg, [])
  | req :: reqs' =>
      match step reg req with
      | None => None
      | Some (reg1, effs1) =>
          match run reg1 reqs' with
          | None => None
          | Some (reg2, effs2) => Some (reg2, effs1 ++ effs2)
          end
      end
  end.

(** The registries the server can be in: [active_rooms] starts empty. *)
Definition reachable (reg : registry) : Prop :=
  ∃ reqs effs, run [] reqs = Some (reg, effs).

(** A [join_room] payload with just the two fields of the event surface. *)
Definition join_data (code type : string) : payload :=
  <["code" := code]> (<["type" := type]> ∅).

(** ** Specification vocabulary *)

(** A field that is missing from the payload, or present and empty. *)
Definition field_missing (data : payload) (key : string) : Prop :=
  data !! key = None ∨ data !! key = Some "".

(** The room [code] exists and has at least one receiver. *)
Definition has_receiver (reg : registry) (code : string) : Prop :=
  ∃ room x, reg_get code reg = Some room ∧ x ∈ receivers room.

(** Both role-sets of the room are empty. *)
Definition room_empty (room : Room) : bool :=
  negb (list_truthy (senders room)) && negb (list_truthy (receivers room)).

(** The connection is in no role-set of any room. *)
Definition in_no_room (sid : string) (reg : registry) : Prop :=
  ∀ code room, (code, room) ∈ reg →
    (sid ∉ senders room) ∧ (sid ∉ receivers room).

(** No entry of the registry has both role-sets empty. *)
Definition no_empty_room (reg : registry) : Prop :=
  ∀ code room, (code, room) ∈ reg → room_empty room = false.

(** No connection is in both role-sets of one room. *)
Definition role_exclusive (reg : registry) : Prop :=
  ∀ code room sid, reg_get code reg = Some room →
    ¬ (sid ∈ senders room ∧ sid ∈ receivers room).

(** Among [reqs], connection [sid] asked to join room [code] as [role]. *)
Definition joined_as (sid code role : string) (reqs : list request) : Prop :=
  ∃ data, (JoinRoom sid data ∈ reqs)
          ∧ data !! "code" = Some code ∧ data !! "type" = Some role.

(** The dict has one entry per key, and no list names a connection twice. *)
Definition room_nodup (room : Room) : Prop :=
  NoDup (senders room) ∧ NoDup (receivers room).

Definition wf (reg : registry) : Prop :=
  NoDup (reg_keys reg) ∧ Forall (λ kr, room_nodup kr.2) reg.

(** What one disconnect makes of a room, and of the whole registry: the
    closed form of the loop of [handle_disconnect]. *)
Definition room_leave (sid : string) (room : Room) : Room :=
  mkRoom (remove_first sid (senders room)) (remove_first sid (receivers room)).

Fixpoint leave_all (sid : string) (reg : registry) : registry :=
  match reg with
  | [] => []
  | (k, r) :: rest =>
      if room_empty (room_leave sid r) then leave_all sid rest
      else (k, room_leave sid r) :: leave_all sid rest
  end.

Definition sender_left (room_code : string) : effect :=
  Emit (ToGroup (recv_group room_code) None)
    (Ev_room_status "sender_left" "Sender has left the room").

Fixpoint leave_effects (sid : string) (reg : registry) : list effect :=
  match reg with
  | [] => []
  | (k, r) :: rest =>
      (if bool_decide (sid ∈ senders r) && list_truthy (receivers r)
       then [sender_left k] else [])
      ++ leave_effects sid rest
  end.

(** The room after [sid] joined it as [device_type]. *)
Definition room_join (sid device_type : string) (room : Room) : Room :=
  if decide (device_type = "sender") then
    if bool_decide (sid ∈ senders room) then room
    else mkRoom (senders room ++ [sid]) (receivers room)
  else if decide (device_type = "receiver") then
    if bool_decide (sid ∈ receivers room) then room
    else mkRoom (senders room) (receivers room ++ [sid])
  else room.

(** The groups [on_join] subscribes the connection to. *)
Definition join_groups (sid room_code device_type : string) : list effect :=
  if decide (device_type = "sender") then [JoinGroup sid room_code]
  else if decide (device_type = "receiver")
  then [JoinGroup sid room_code; JoinGroup sid (recv_group room_code)]
  else [].

Definition active_status (sid room_code : string) : effect :=
  Emit (ToGroup room_code (Some sid))
    (Ev_room_status "active" "Both sender and receiver connected").

Definition joined_reply (sid device_type : string) (room : Room) : effect :=
  let has_sender := bool_decide (0 < length (senders room)) in
  let has_receiver := bool_decide (0 < length (receivers room)) in
  Emit (ToSid sid)
    (Ev_room_joined (device_type +:+ " joined") device_type
       (has_sender && has_receiver) has_sender has_receiver).

Definition room_is_active (room : Room) : bool :=
  bool_decide (0 < length (senders room))
  && bool_decide (0 < length (receivers room)).

(** Every member of a role-set asked to join under that role. *)
Definition members_joined (hist : list request) (reg : registry) : Prop :=
  ∀ code room sid, (code, room) ∈ reg →
    (sid ∈ senders room → joined_as sid code "sender" hist)
    ∧ (sid ∈ receivers room → joined_as sid code "receiver" hist).

(** Payloads with just the two fields of [send_text] and
    [send_live_control]. *)
Definition text_data (code text : string) : payload :=
  <["code" := code]> (<["text" := text]> ∅).

Definition control_data (code control : string) : payload :=
  <["code" := code]> (<["control" := control]> ∅).

(** ** The HTTP side *)

(** [s.endswith('/')]. *)
Fixpoint ends_with_slash (s : string) : bool :=
  match s with
  | EmptyString => false
  | String _ EmptyString => bool_decide (s = "/")
  | String _ s' => ends_with_slash s'
  end.

(** [os.path.join(a, b)] (posixpath). *)
Definition os_path_join (a b : string) : string :=
  if String.prefix "/" b then b
  else if negb (str_truthy a) || ends_with_slash a then a +:+ b
  else a +:+ "/" +:+ b.

(** [serve_frontend(path)].  [static_folder] is [app.static_folder] and
    [path_exists] is [os.path.exists], the state of the file system.
    Flask's [abort] and [send_from_directory] are taken as they come:
    [R] is whatever they produce, a response or a raised HTTP error
    ([send_from_directory] itself raises NotFound for a directory, an
    absolute path or a path that leaves the folder), and the view hands
    that outcome on. *)
Definition serve_frontend {R : Type} (abort : nat → R)
    (send_from_directory : string → string → R) (static_folder : string)
    (path_exists : string → bool) (path : string) : R :=
  (* Let Socket.IO endpoints pass through to the Socket.IO server *)
  if String.prefix "socket.io" path then abort 404
  else
    let static_dir := static_folder in
    let target_path := os_path_join static_dir path in
    if str_truthy path && path_exists target_path
    then send_from_directory static_dir path
    else send_from_directory static_dir "index.html".

(** ** More vocabulary *)

(** The connection a request comes from, [request.sid]. *)
Definition requester (req : request) : string :=
  match req with
  | Connect sid | Disconnect sid => sid
  | JoinRoom sid _ | SendText sid _ | SendLiveControl sid _ => sid
  end.

(** A request other than a [join_room] with an unknown device type. *)
Definition join_role_ok (req : request) : Prop :=
  match req with
  | JoinRoom _ data =>
      field_missing data "code" ∨ field_missing data "type"
      ∨ data !! "type" = Some "sender" ∨ data !! "type" = Some "receiver"
  | _ => True
  end.

(** Every member of a room has been subscribed to the groups of its role. *)
Definition members_subscribed (effs : list effect) (reg : registry) : Prop :=
  ∀ code room sid, (code, room) ∈ reg →
    (sid ∈ senders room → JoinGroup sid code ∈ effs)
    ∧ (sid ∈ receivers room →
       JoinGroup sid code ∈ effs ∧ JoinGroup sid (recv_group code) ∈ effs).

(** * Proofs *)

(** ** Strings and lists *)

Lemma str_truthy_false (s : string) : str_truthy s = false ↔ s = "".
Proof. destruct s; simpl; split; congruence. Qed.

Lemma str_truthy_true (s : string) : str_truthy s = true ↔ s ≠ "".
Proof. destruct s; simpl; split; congruence. Qed.

Lemma list_truthy_true {A} (l : list A) : list_truthy l = true ↔ l ≠ [].
Proof. destruct l; simpl; split; congruence. Qed.

Lemma list_truthy_false {A} (l : list A) : list_truthy l = false ↔ l = [].
Proof. destruct l; simpl; split; congruence. Qed.

Lemma list_truthy_length {A} (l : list A) :
  bool_decide (0 < length l) = list_truthy l.
Proof. by destruct l. Qed.

Lemma remove_first_notin x l : x ∉ l → remove_first x l = l.
Proof.
  induction l as [|y l IH]; simpl; [done|].
  intros Hx. apply not_elem_of_cons in Hx as [Hxy Hl].
  case_decide; [congruence|]. by rewrite IH.
Qed.

Lemma remove_first_subset x y l : y ∈ remove_first x l → y ∈ l.
Proof.
  induction l as [|z l IH]; simpl; [done|].
  case_decide; rewrite !elem_of_cons; naive_solver.
Qed.

Lemma remove_first_other x y l : y ≠ x → y ∈ l → y ∈ remove_first x l.
Proof.
  intros Hne. induction l as [|z l IH]; simpl; [done|].
  case_decide; rewrite !elem_of_cons; naive_solver.
Qed.

Lemma remove_first_gone x l : NoDup l → x ∉ remove_first x l.
Proof.
  induction 1 as [|z l Hz Hl IH]; simpl; [apply not_elem_of_nil|].
  case_decide; [by subst|].
  rewrite elem_of_cons. naive_solver.
Qed.

Lemma remove_first_NoDup x l : NoDup l → NoDup (remove_first x l).
Proof.
  induction 1 as [|z l Hz Hl IH]; simpl; [constructor|].
  case_decide; [done|].
  constructor; [|done]. intros Hin. by apply Hz, remove_first_subset with x.
Qed.

Lemma room_leave_nodup sid room : room_nodup room → room_nodup (room_leave sid room).
Proof. intros [??]. split; by apply remove_first_NoDup. Qed.

(** ** The registry as a dict *)

Lemma reg_get_None code (reg : registry) :
  reg_get code reg = None ↔ code ∉ reg_keys reg.
Proof.
  induction reg as [|[k r] reg IH]; simpl.
  - split; [intros _; apply not_elem_of_nil|done].
  - rewrite not_elem_of_cons. case_decide; naive_solver.
Qed.

Lemma reg_get_elem code room (reg : registry) :
  reg_get code reg = Some room → (code, room) ∈ reg.
Proof.
  induction reg as [|[k r] reg IH]; simpl; [done|].
  case_decide; rewrite elem_of_cons; naive_solver.
Qed.

Lemma elem_reg_get code room (reg : registry) :
  NoDup (reg_keys reg) → (code, room) ∈ reg → reg_get code reg = Some room.
Proof.
  induction reg as [|[k r] reg IH]; simpl; [by rewrite elem_of_nil|].
  rewrite NoDup_cons, elem_of_cons. intros [Hk Hnd] [Heq|Hin].
  - injection Heq as -> ->. by rewrite decide_True.
  - case_decide; [|by apply IH]. subst k.
    destruct Hk. change code with (code, room).1. by apply list_elem_of_fmap_2.
Qed.

Lemma reg_get_set_eq code room (reg : registry) :
  reg_get code (reg_set code room reg) = Some room.
Proof.
  induction reg as [|[k r] reg IH]; simpl; [by rewrite decide_True|].
  case_decide; simpl; [by rewrite decide_True|by rewrite decide_False].
Qed.

Lemma reg_get_set_ne code code' room (reg : registry) :
  code ≠ code' → reg_get code' (reg_set code room reg) = reg_get code' reg.
Proof.
  intros Hne. induction reg as [|[k r] reg IH]; simpl.
  - by rewrite decide_False.
  - case_decide; simpl; [subst; by rewrite !decide_False|].
    by rewrite IH.
Qed.

Lemma reg_set_same code room (reg : registry) :
  reg_get code reg = Some room → reg_set code room reg = reg.
Proof.
  induction reg as [|[k r] reg IH]; simpl; [done|].
  case_decide; [by intros [= ->]|]. intros H'. by rewrite IH.
Qed.

Lemma reg_get_app_new code code' room (reg : registry) :
  reg_get code' (reg ++ [(code, room)])
  = match reg_get code' reg with
    | Some r => Some r
    | None => if decide (code = code') then Some room else None
    end.
Proof.
  induction reg as [|[k r] reg IH]; simpl.
  - by destruct (decide (code = code')).
  - by destruct (decide (k = code')).
Qed.

Lemma reg_keys_set code room (reg : registry) :
  is_Some (reg_get code reg) → reg_keys (reg_set code room reg) = reg_keys reg.
Proof.
  unfold reg_keys.
  induction reg as [|[k r] reg IH]; simpl; [by intros [? ?]|].
  case_decide; simpl; [by subst|]. intros H'. f_equal. by apply IH.
Qed.

Lemma reg_set_elem code room (reg : registry) k r :
  (k, r) ∈ reg_set code room reg → (k, r) = (code, room) ∨ (k, r) ∈ reg.
Proof.
  induction reg as [|[k' r'] reg IH]; simpl.
  - rewrite list_elem_of_singleton. by left.
  - case_decide; rewrite !elem_of_cons; naive_solver.
Qed.

Lemma reg_set_mid code room room' (pre suf : registry) :
  code ∉ reg_keys pre →
  reg_set code room' (pre ++ (code, room) :: suf) = pre ++ (code, room') :: suf.
Proof.
  induction pre as [|[k r] pre IH]; simpl.
  - by rewrite decide_True.
  - rewrite not_elem_of_cons. intros [Hne Hpre].
    rewrite decide_False by done. by rewrite IH.
Qed.

Lemma reg_del_mid code room (pre suf : registry) :
  code ∉ reg_keys pre →
  reg_del code (pre ++ (code, room) :: suf) = pre ++ suf.
Proof.
  induction pre as [|[k r] pre IH]; simpl.
  - by rewrite decide_True.
  - rewrite not_elem_of_cons. intros [Hne Hpre].
    rewrite decide_False by done. by rewrite IH.
Qed.

Lemma reg_get_mid code room (pre suf : registry) :
  code ∉ reg_keys pre → reg_get code (pre ++ (code, room) :: suf) = Some room.
Proof.
  induction pre as [|[k r] pre IH]; simpl.
  - by rewrite decide_True.
  - rewrite not_elem_of_cons. intros [Hne Hpre].
    rewrite decide_False by done. by rewrite IH.
Qed.

(** ** [handle_disconnect] in closed form *)

Lemma disconnect_room_mid sid k r (pre suf : registry) :
  k ∉ reg_keys pre →
  disconnect_room sid k r (pre ++ (k, r) :: suf)
  = (if room_empty (room_leave sid r) then pre ++ suf
     else pre ++ (k, room_leave sid r) :: suf,
     if bool_decide (sid ∈ senders r) && list_truthy (receivers r)
     then [sender_left k] else []).
Proof.
  intros Hk. unfold disconnect_room.
  set (room2 := if bool_decide (sid ∈ receivers r) then _ else _).
  assert (room2 = room_leave sid r) as ->.
  { unfold room2, room_leave. destruct r as [ss rs]; simpl.
    destruct (bool_decide_reflect (sid ∈ ss)),
      (bool_decide_reflect (sid ∈ rs)); simpl.
    - done.
    - by rewrite (remove_first_notin sid rs).
    - by rewrite (remove_first_notin sid ss).
    - by rewrite (remove_first_notin sid ss), (remove_first_notin sid rs). }
  rewrite reg_set_mid by done.
  fold (room_empty (room_leave sid r)).
  assert ((if bool_decide (sid ∈ senders r)
           then mkRoom (remove_first sid (senders r)) (receivers r) else r).(receivers)
          = receivers r) as -> by (by destruct (bool_decide _)).
  destruct (room_empty _); [|done].
  by rewrite reg_del_mid.
Qed.

Lemma disconnect_loop_mid sid (suf pre : registry) :
  NoDup (reg_keys (pre ++ suf)) →
  disconnect_loop sid (reg_keys suf) (pre ++ suf)
  = Some (pre ++ leave_all sid suf, leave_effects sid suf).
Proof.
  revert pre. induction suf as [|[k r] suf IH]; intros pre Hnd; simpl; [done|].
  assert (k ∉ reg_keys pre) as Hk.
  { unfold reg_keys in *. rewrite fmap_app in Hnd.
    apply NoDup_app in Hnd as (_ & Hdisj & _).
    intros Hin. apply (Hdisj _ Hin). simpl. left. }
  rewrite reg_get_mid by done.
  rewrite disconnect_room_mid by done.
  destruct (room_empty (room_leave sid r)).
  - fold (reg_keys suf). rewrite IH; [done|].
    unfold reg_keys in *. rewrite fmap_app in *. simpl in Hnd.
    apply NoDup_app in Hnd as (Hpre & Hdisj & Hsuf).
    apply NoDup_cons in Hsuf as [_ Hsuf].
    apply NoDup_app. split_and!; [done| |done].
    intros x Hx Hx'. apply (Hdisj x Hx). by right.
  - fold (reg_keys suf).
    replace (pre ++ (k, room_leave sid r) :: suf)
      with ((pre ++ [(k, room_leave sid r)]) ++ suf) by by rewrite <- app_assoc.
    rewrite IH; [by rewrite <- app_assoc|].
    unfold reg_keys in *. by rewrite <- app_assoc, fmap_app in *.
Qed.

(** On a dict (one entry per key) the loop never raises, and it leaves
    the closed form. *)
Lemma handle_disconnect_closed sid (reg : registry) :
  NoDup (reg_keys reg) →
  handle_disconnect reg sid = Some (leave_all sid reg, leave_effects sid reg).
Proof. intros Hnd. apply (disconnect_loop_mid sid reg []), Hnd. Qed.

Lemma leave_all_elem sid (reg : registry) k r' :
  (k, r') ∈ leave_all sid reg →
  ∃ r, (k, r) ∈ reg ∧ r' = room_leave sid r ∧ room_empty r' = false.
Proof.
  induction reg as [|[k0 r0] reg IH]; simpl; [by rewrite elem_of_nil|].
  destruct (room_empty (room_leave sid r0)) eqn:He.
  - intros Hin. destruct (IH Hin) as (r & ? & ? & ?).
    exists r. rewrite elem_of_cons. auto.
  - rewrite elem_of_cons. intros [[= -> ->]|Hin].
    + exists r0. rewrite elem_of_cons. auto.
    + destruct (IH Hin) as (r & ? & ? & ?).
      exists r. rewrite elem_of_cons. auto.
Qed.

Lemma leave_all_keys sid (reg : registry) k :
  k ∈ reg_keys (leave_all sid reg) → k ∈ reg_keys reg.
Proof.
  unfold reg_keys. rewrite !list_elem_of_fmap.
  intros ([k' r'] & -> & Hin). apply leave_all_elem in Hin as (r & ? & _).
  by exists (k', r).
Qed.

Lemma leave_all_keys_NoDup sid (reg : registry) :
  NoDup (reg_keys reg) → NoDup (reg_keys (leave_all sid reg)).
Proof.
  induction reg as [|[k r] reg IH]; simpl; [done|].
  rewrite NoDup_cons. intros [Hk Hnd].
  destruct (room_empty _); simpl; [by apply IH|].
  apply NoDup_cons. split; [|by apply IH].
  intros Hin. by apply Hk, leave_all_keys with sid.
Qed.

Lemma leave_all_get sid (reg : registry) code :
  NoDup (reg_keys reg) →
  reg_get code (leave_all sid reg)
  = match reg_get code reg with
    | Some r =>
        if room_empty (room_leave sid r) then None
        else Some (room_leave sid r)
    | None => None
    end.
Proof.
  induction reg as [|[k r] reg IH]; simpl; [done|].
  rewrite NoDup_cons. intros [Hk Hnd].
  destruct (decide (k = code)) as [->|Hne].
  - destruct (room_empty _) eqn:He; simpl; [|by rewrite decide_True].
    apply reg_get_None. intros Hin. by apply Hk, leave_all_keys with sid.
  - destruct (room_empty _); simpl; rewrite ?decide_False by done; by apply IH.
Qed.

Lemma leave_all_wf sid (reg : registry) : wf reg → wf (leave_all sid reg).
Proof.
  intros [Hk Hr]. split; [by apply leave_all_keys_NoDup|].
  apply Forall_forall. intros [k r'] Hin.
  apply leave_all_elem in Hin as (r & Hin & -> & _).
  apply room_leave_nodup. rewrite Forall_forall in Hr. apply (Hr _ Hin).
Qed.

Lemma leave_all_id sid (reg : registry) :
  in_no_room sid reg → no_empty_room reg → leave_all sid reg = reg.
Proof.
  induction reg as [|[k r] reg IH]; simpl; [done|].
  intros Hno Hne.
  assert (room_leave sid r = r) as ->.
  { destruct (Hno k r) as [Hs Hr]; [left|].
    unfold room_leave. rewrite !remove_first_notin by done. by destruct r. }
  rewrite (Hne k r) by left.
  f_equal. apply IH.
  - intros c r' Hin. apply (Hno c r'). by right.
  - intros c r' Hin. apply (Hne c r'). by right.
Qed.

Lemma leave_effects_none sid (reg : registry) :
  in_no_room sid reg → leave_effects sid reg = [].
Proof.
  induction reg as [|[k r] reg IH]; simpl; [done|].
  intros Hno. destruct (Hno k r) as [Hs _]; [left|].
  rewrite bool_decide_eq_false_2 by done. simpl.
  apply IH. intros c r' Hin. apply (Hno c r'). by right.
Qed.

Lemma leave_effects_elem sid (reg : registry) e :
  e ∈ leave_effects sid reg ↔
  ∃ k r, (k, r) ∈ reg ∧ sid ∈ senders r ∧ receivers r ≠ [] ∧ e = sender_left k.
Proof.
  induction reg as [|[k r] reg IH]; simpl.
  - rewrite elem_of_nil. split; [done|]. intros (? & ? & H' & _).
    by apply elem_of_nil in H'.
  - rewrite elem_of_app, IH. split.
    + intros [Hin|(k' & r' & Hin & ?)].
      * destruct (bool_decide_reflect (sid ∈ senders r)); simpl in Hin;
          [|by apply elem_of_nil in Hin].
        destruct (list_truthy (receivers r)) eqn:Ht;
          [|by apply elem_of_nil in Hin].
        apply list_elem_of_singleton in Hin as ->.
        exists k, r. rewrite elem_of_cons, <- list_truthy_true. auto.
      * exists k', r'. rewrite elem_of_cons. auto.
    + intros (k' & r' & Hin & Hs & Hr & ->).
      apply elem_of_cons in Hin as [[= -> ->]|Hin].
      * left. rewrite bool_decide_eq_true_2 by done.
        apply list_truthy_true in Hr as ->. simpl. left.
      * right. eauto 10.
Qed.

(** ** [on_join] in closed form *)

Lemma join_checked_closed (reg : registry) sid code ty :
  let room := room_join sid ty (default (mkRoom [] []) (reg_get code reg)) in
  join_checked reg sid code ty
  = (match reg_get code reg with
     | Some _ => reg_set code room reg
     | None => reg ++ [(code, room)]
     end,
     join_groups sid code ty ++ [joined_reply sid ty room]
     ++ (if room_is_active room then [active_status sid code] else [])).
Proof.
  unfold join_checked, room_join, join_groups, joined_reply, room_is_active,
    active_status.
  destruct (reg_get code reg) as [room0|] eqn:Hget; simpl.
  - destruct (decide (ty = "sender")); [|destruct (decide (ty = "receiver"))].
    + destruct (bool_decide _); [|done]. by rewrite reg_set_same.
    + destruct (bool_decide _); [|done]. by rewrite reg_set_same.
    + by rewrite reg_set_same.
  - apply reg_get_None in Hget.
    destruct (decide (ty = "sender")); [|destruct (decide (ty = "receiver"))];
      simpl; by rewrite ?(reg_set_mid code _ _ reg []).
Qed.

Lemma on_join_invalid (reg : registry) sid data :
  field_missing data "code" ∨ field_missing data "type" →
  on_join reg sid data = (reg, invalid_join sid).
Proof.
  unfold on_join, field_missing.
  destruct (data !! "code") as [code|], (data !! "type") as [ty|]; try done.
  intros [[?|[= ->]]|[?|[= ->]]]; try done. by rewrite orb_true_r.
Qed.

Lemma on_join_checked (reg : registry) sid data code ty :
  data !! "code" = Some code → data !! "type" = Some ty →
  code ≠ "" → ty ≠ "" →
  on_join reg sid data = join_checked reg sid code ty.
Proof.
  intros Hc Ht Hcne Htne. unfold on_join. rewrite Hc, Ht.
  apply str_truthy_true in Hcne, Htne. by rewrite Hcne, Htne.
Qed.

(** Every request to join either fails the guard or reaches the body. *)
Lemma on_join_cases (reg : registry) sid data :
  on_join reg sid data = (reg, invalid_join sid)
  ∨ ∃ code ty, data !! "code" = Some code ∧ data !! "type" = Some ty
               ∧ code ≠ "" ∧ ty ≠ ""
               ∧ on_join reg sid data = join_checked reg sid code ty.
Proof.
  unfold on_join.
  destruct (data !! "code") as [code|], (data !! "type") as [ty|]; auto.
  destruct (str_truthy code) eqn:Hc, (str_truthy ty) eqn:Ht; simpl; auto.
  right. exists code, ty. apply str_truthy_true in Hc, Ht. auto.
Qed.

Lemma room_join_senders sid ty room x :
  x ∈ senders (room_join sid ty room) →
  x ∈ senders room ∨ (x = sid ∧ ty = "sender").
Proof.
  unfold room_join.
  destruct (decide (ty = "sender")); [|destruct (decide (ty = "receiver"))];
    try destruct (bool_decide _); simpl; auto.
  rewrite elem_of_app, list_elem_of_singleton. naive_solver.
Qed.

Lemma room_join_receivers sid ty room x :
  x ∈ receivers (room_join sid ty room) →
  x ∈ receivers room ∨ (x = sid ∧ ty = "receiver").
Proof.
  unfold room_join.
  destruct (decide (ty = "sender")); [|destruct (decide (ty = "receiver"))];
    try destruct (bool_decide _); simpl; auto.
  rewrite elem_of_app, list_elem_of_singleton. naive_solver.
Qed.

Lemma room_join_nodup sid ty room :
  room_nodup room → room_nodup (room_join sid ty room).
Proof.
  intros [Hs Hr]. unfold room_join.
  assert (∀ (l : list string) x, NoDup l → x ∉ l → NoDup (l ++ [x])) as Hsnoc.
  { intros l x Hl Hx. apply NoDup_app. split_and!; [done| |apply NoDup_singleton].
    by intros y Hy ->%list_elem_of_singleton. }
  destruct (decide (ty = "sender")); [|destruct (decide (ty = "receiver"))].
  - destruct (bool_decide_reflect (sid ∈ senders room)); [done|].
    split; simpl; auto.
  - destruct (bool_decide_reflect (sid ∈ receivers room)); [done|].
    split; simpl; auto.
  - done.
Qed.

Lemma join_checked_elem (reg : registry) sid code ty k r :
  (k, r) ∈ (join_checked reg sid code ty).1 →
  (k, r) ∈ reg
  ∨ (k = code
     ∧ r = room_join sid ty (default (mkRoom [] []) (reg_get code reg))
     ∧ ∀ room, reg_get code reg = Some room → (code, room) ∈ reg).
Proof.
  rewrite join_checked_closed. simpl.
  destruct (reg_get code reg) as [room0|] eqn:Hget; simpl.
  - intros [[= -> ->]|Hin]%reg_set_elem; [|by left].
    right. split_and!; [done..|]. intros ? [= <-]. by apply reg_get_elem.
  - rewrite elem_of_app, list_elem_of_singleton.
    intros [?|[= -> ->]]; [by left|]. right. by split_and!.
Qed.

Lemma join_checked_wf (reg : registry) sid code ty :
  wf reg → wf (join_checked reg sid code ty).1.
Proof.
  intros [Hk Hr]. split.
  - rewrite join_checked_closed. simpl.
    destruct (reg_get code reg) eqn:Hget.
    + by rewrite reg_keys_set.
    + apply reg_get_None in Hget. unfold reg_keys in *.
      rewrite fmap_app. simpl. apply NoDup_app. split_and!; [done| |apply NoDup_singleton].
      intros x Hx ->%list_elem_of_singleton. done.
  - apply Forall_forall. intros [k r] Hin.
    rewrite Forall_forall in Hr.
    apply join_checked_elem in Hin as [Hin|(-> & -> & Hin)]; [by apply (Hr _ Hin)|].
    apply room_join_nodup. simpl.
    destruct (reg_get code reg) as [room0|]; simpl.
    + by apply (Hr (code, room0)), Hin.
    + split; constructor.
Qed.

Lemma on_join_wf (reg : registry) sid data :
  wf reg → wf (on_join reg sid data).1.
Proof.
  intros Hwf.
  destruct (on_join_cases reg sid data) as [->|(code & ty & _ & _ & _ & _ & ->)];
    [done|by apply join_checked_wf].
Qed.

(** ** What the relays leave alone *)

Lemma handle_text_reg (reg : registry) sid data :
  (handle_text reg sid data).1 = reg.
Proof.
  unfold handle_text. destruct (data !! "code"); [|done].
  destruct (_ && _); [|done]. by destruct (room_has_receivers _ _).
Qed.

Lemma handle_live_control_reg (reg : registry) sid data :
  (handle_live_control reg sid data).1 = reg.
Proof.
  unfold handle_live_control.
  destruct (data !! "code"), (data !! "control"); try done.
  destruct (_ || _); [done|]. by destruct (room_has_receivers _ _).
Qed.

Lemma room_has_receivers_spec (reg : registry) code :
  room_has_receivers reg code = true ↔ has_receiver reg code.
Proof.
  unfold room_has_receivers, has_receiver.
  destruct (reg_get code reg) as [room|]; [|naive_solver].
  rewrite list_truthy_true. split.
  - destruct (receivers room) as [|x l] eqn:Hr; [done|].
    intros _. exists room, x. rewrite Hr. split; [done|left].
  - intros (? & x & [= <-] & Hx) Hnil. rewrite Hnil in Hx.
    by apply elem_of_nil in Hx.
Qed.

(** ** Reachable registries are well formed *)

Lemma step_wf (reg reg' : registry) req effs :
  wf reg → step reg req = Some (reg', effs) → wf reg'.
Proof.
  intros Hwf. destruct req as [sid|sid|sid data|sid data|sid data]; simpl.
  - by intros [= <- <-].
  - rewrite handle_disconnect_closed by apply Hwf.
    intros [= <- <-]. by apply leave_all_wf.
  - intros [= Heq]. apply (f_equal fst) in Heq. simpl in Heq. subst reg'.
    by apply on_join_wf.
  - intros [= Heq]. apply (f_equal fst) in Heq. simpl in Heq.
    by rewrite handle_text_reg in Heq; subst.
  - intros [= Heq]. apply (f_equal fst) in Heq. simpl in Heq.
    by rewrite handle_live_control_reg in Heq; subst.
Qed.

(** No handler raises on a well-formed registry. *)
Lemma step_total (reg : registry) req :
  wf reg → ∃ reg' effs, step reg req = Some (reg', effs).
Proof.
  intros Hwf. destruct req as [sid|sid|sid data|sid data|sid data]; simpl;
    try (eexists _, _; by rewrite <- surjective_pairing).
  rewrite handle_disconnect_closed by apply Hwf. eauto.
Qed.

Lemma run_wf (reqs : list request) (reg reg' : registry) effs :
  wf reg → run reg reqs = Some (reg', effs) → wf reg'.
Proof.
  revert reg effs. induction reqs as [|req reqs IH]; intros reg effs Hwf; simpl.
  - by intros [= <- <-].
  - destruct (step reg req) as [[reg1 effs1]|] eqn:Hstep; [|done].
    destruct (run reg1 reqs) as [[reg2 effs2]|] eqn:Hrun; [|done].
    intros [= <- <-]. eapply IH; [|done]. by eapply step_wf.
Qed.

Lemma run_total (reqs : list request) (reg : registry) :
  wf reg → ∃ reg' effs, run reg reqs = Some (reg', effs).
Proof.
  revert reg. induction reqs as [|req reqs IH]; intros reg Hwf; simpl; [eauto|].
  destruct (step_total reg req Hwf) as (reg1 & effs1 & Hstep). rewrite Hstep.
  destruct (IH reg1) as (reg2 & effs2 & Hrun); [by eapply step_wf|].
  rewrite Hrun. eauto.
Qed.

Lemma wf_nil : wf [].
Proof. split; constructor. Qed.

Lemma reachable_wf (reg : registry) : reachable reg → wf reg.
Proof. intros (reqs & effs & Hrun). eapply run_wf; [apply wf_nil|done]. Qed.

(** ** Membership comes from joins *)

Lemma joined_as_mono sid code role (h1 h2 : list request) :
  joined_as sid code role h1 → joined_as sid code role (h1 ++ h2).
Proof.
  intros (data & Hin & ?). exists data. rewrite elem_of_app. auto.
Qed.

Lemma joined_as_last sid code role data (hist : list request) :
  data !! "code" = Some code → data !! "type" = Some role →
  joined_as sid code role (hist ++ [JoinRoom sid data]).
Proof.
  intros ??. exists data. rewrite elem_of_app, list_elem_of_singleton. auto.
Qed.

Lemma members_joined_mono (h1 h2 : list request) (reg : registry) :
  members_joined h1 reg → members_joined (h1 ++ h2) reg.
Proof.
  intros Hm code room sid Hin. destruct (Hm code room sid Hin).
  split; intros; apply joined_as_mono; auto.
Qed.

Lemma step_members_joined (hist : list request) (reg reg' : registry) req effs :
  wf reg → members_joined hist reg → step reg req = Some (reg', effs) →
  members_joined (hist ++ [req]) reg'.
Proof.
  intros Hwf Hm. destruct req as [sid|sid|sid data|sid data|sid data]; simpl.
  - intros [= <- <-]. by apply members_joined_mono.
  - rewrite handle_disconnect_closed by apply Hwf. intros [= <- <-].
    intros code room' x (room & Hin & -> & _)%leave_all_elem.
    destruct (Hm code room x Hin) as [Hs Hr]. simpl.
    split; intros ?%remove_first_subset; apply joined_as_mono; auto.
  - intros [= Heq]. apply (f_equal fst) in Heq. simpl in Heq. subst reg'.
    destruct (on_join_cases reg sid data)
      as [->|(code & ty & Hc & Ht & _ & _ & ->)];
      [by apply members_joined_mono|].
    intros k r x [Hin|(-> & -> & Hold)]%join_checked_elem.
    { by apply (members_joined_mono hist [JoinRoom sid data] reg Hm k r x). }
    assert (members_joined hist
              [(code, default (mkRoom [] []) (reg_get code reg))]) as Hm0.
    { intros k' r' y [= -> ->]%list_elem_of_singleton.
      destruct (reg_get code reg) as [room0|]; simpl.
      - by apply Hm, Hold.
      - split; intros []%elem_of_nil. }
    destruct (Hm0 code (default (mkRoom [] []) (reg_get code reg)) x)
      as [Hs Hr]; [left|].
    split.
    + intros [?|[-> ->]]%room_join_senders;
        [by apply joined_as_mono, Hs|by apply joined_as_last].
    + intros [?|[-> ->]]%room_join_receivers;
        [by apply joined_as_mono, Hr|by apply joined_as_last].
  - intros [= Heq]. apply (f_equal fst) in Heq. simpl in Heq.
    rewrite handle_text_reg in Heq; subst. by apply members_joined_mono.
  - intros [= Heq]. apply (f_equal fst) in Heq. simpl in Heq.
    rewrite handle_live_control_reg in Heq; subst. by apply members_joined_mono.
Qed.

Lemma run_members_joined (reqs hist : list request) (reg reg' : registry) effs :
  wf reg → members_joined hist reg → run reg reqs = Some (reg', effs) →
  members_joined (hist ++ reqs) reg'.
Proof.
  revert hist reg effs.
  induction reqs as [|req reqs IH]; intros hist reg effs Hwf Hm; simpl.
  - intros [= <- <-]. by rewrite app_nil_r.
  - destruct (step reg req) as [[reg1 effs1]|] eqn:Hstep; [|done].
    destruct (run reg1 reqs) as [[reg2 effs2]|] eqn:Hrun; [|done].
    intros [= <- <-].
    replace (hist ++ req :: reqs) with ((hist ++ [req]) ++ reqs)
      by by rewrite <- app_assoc.
    eapply IH; [|by eapply step_members_joined|done].
    by eapply step_wf.
Qed.

Lemma join_checked_get (reg : registry) sid code ty :
  reg_get code (join_checked reg sid code ty).1
  = Some (room_join sid ty (default (mkRoom [] []) (reg_get code reg))).
Proof.
  rewrite join_checked_closed. simpl.
  destruct (reg_get code reg) eqn:Hget; simpl.
  - apply reg_get_set_eq.
  - by rewrite reg_get_app_new, Hget, decide_True.
Qed.

Lemma room_join_sender_in sid room : sid ∈ senders (room_join sid "sender" room).
Proof.
  unfold room_join. rewrite decide_True by done.
  destruct (bool_decide_reflect (sid ∈ senders room)); [done|].
  simpl. rewrite elem_of_app, list_elem_of_singleton. auto.
Qed.

Lemma room_join_receiver_in sid room :
  sid ∈ receivers (room_join sid "receiver" room).
Proof.
  unfold room_join. rewrite decide_False, decide_True by done.
  destruct (bool_decide_reflect (sid ∈ receivers room)); [done|].
  simpl. rewrite elem_of_app, list_elem_of_singleton. auto.
Qed.

Lemma room_join_receiver_senders sid room :
  senders (room_join sid "receiver" room) = senders room.
Proof.
  unfold room_join. rewrite decide_False, decide_True by done.
  by destruct (bool_decide _).
Qed.

Lemma room_join_idem sid ty room :
  room_join sid ty (room_join sid ty room) = room_join sid ty room.
Proof.
  unfold room_join.
  destruct (decide (ty = "sender")); [|destruct (decide (ty = "receiver"))].
  - destruct (bool_decide_reflect (sid ∈ senders room)) as [Hin|Hin].
    + by rewrite bool_decide_eq_true_2.
    + simpl. rewrite bool_decide_eq_true_2; [done|].
      rewrite elem_of_app, list_elem_of_singleton. auto.
  - destruct (bool_decide_reflect (sid ∈ receivers room)) as [Hin|Hin].
    + by rewrite bool_decide_eq_true_2.
    + simpl. rewrite bool_decide_eq_true_2; [done|].
      rewrite elem_of_app, list_elem_of_singleton. auto.
  - done.
Qed.

(** ** Two traces *)

(** A sender and a receiver join "R1"; the sender disconnects, and the
    receivers are told; the receiver disconnects, and the room is gone. *)
Example sender_then_receiver_leave :
  run [] [JoinRoom "s1" (join_data "R1" "sender");
          JoinRoom "r1" (join_data "R1" "receiver");
          Disconnect "s1"; Disconnect "r1"]
  = Some ([],
          [JoinGroup "s1" "R1";
           Emit (ToSid "s1")
             (Ev_room_joined "sender joined" "sender" false true false);
           JoinGroup "r1" "R1"; JoinGroup "r1" "R1_recv";
           Emit (ToSid "r1")
             (Ev_room_joined "receiver joined" "receiver" true true true);
           Emit (ToGroup "R1" (Some "r1"))
             (Ev_room_status "active" "Both sender and receiver connected");
           Emit (ToGroup "R1_recv" None)
             (Ev_room_status "sender_left" "Sender has left the room")]).
Proof. vm_compute. reflexivity. Qed.

(** Text sent to a room without receivers is answered with an error. *)
Example text_without_receivers :
  run [] [JoinRoom "s1" (join_data "R1" "sender");
          SendText "s1" (text_data "R1" "hi")]
  = Some ([("R1", mkRoom ["s1"] [])],
          [JoinGroup "s1" "R1";
           Emit (ToSid "s1")
             (Ev_room_joined "sender joined" "sender" false true false);
           Emit (ToSid "s1") (Ev_error "No receivers in room")]).
Proof. vm_compute. reflexivity. Qed.

(** * The claims *)

(** ** join_room: the guard *)

(** C9: a [join_room] whose code or type is missing or empty produces only
    the error reply to the requester, and the registry is unchanged. *)
Theorem join_missing_field_only_error (reg : registry) (sid : string)
    (data : payload) :
  field_missing data "code" ∨ field_missing data "type" →
  on_join reg sid data
  = (reg, [Emit (ToSid sid) (Ev_error "Invalid room code or device type")]).
Proof. apply on_join_invalid. Qed.

Lemma join_missing_field_only_error_witness :
  on_join [("R1", mkRoom ["s1"] [])] "c1" (<["type" := "sender"]> ∅)
  = ([("R1", mkRoom ["s1"] [])],
     [Emit (ToSid "c1") (Ev_error "Invalid room code or device type")]).
Proof.
  apply join_missing_field_only_error. left. left. reflexivity.
Defined.

(** C10: a [join_room] with a non-empty code and a non-empty type other
    than "sender" and "receiver" emits no error; it creates the room entry
    when absent (both lists empty), adds the connection to no list,
    subscribes it to no group, and replies [room_joined] with the given
    type and the flags of the unchanged membership.  (A room that is
    already active also gets the "active" broadcast, as after every
    join.) *)
Theorem join_other_type_creates_room (reg : registry) (sid : string)
    (data : payload) (code ty : string) :
  data !! "code" = Some code → data !! "type" = Some ty →
  code ≠ "" → ty ≠ "" → ty ≠ "sender" → ty ≠ "receiver" →
  let room := default (mkRoom [] []) (reg_get code reg) in
  let has_sender := bool_decide (0 < length (senders room)) in
  let has_receiver := bool_decide (0 < length (receivers room)) in
  on_join reg sid data
  = (match reg_get code reg with
     | Some _ => reg
     | None => reg ++ [(code, mkRoom [] [])]
     end,
     [Emit (ToSid sid)
        (Ev_room_joined (ty +:+ " joined") ty
           (has_sender && has_receiver) has_sender has_receiver)]
     ++ (if has_sender && has_receiver
         then [Emit (ToGroup code (Some sid))
                 (Ev_room_status "active"
                    "Both sender and receiver connected")]
         else [])).
Proof.
  intros Hc Ht Hcne Htne Hns Hnr. simpl.
  rewrite (on_join_checked reg sid data code ty) by done.
  rewrite join_checked_closed. unfold room_join, join_groups, room_is_active.
  rewrite !(decide_False (P := ty = "sender")) by done.
  rewrite !(decide_False (P := ty = "receiver")) by done.
  unfold joined_reply. simpl.
  destruct (reg_get code reg) as [room0|] eqn:Hget; simpl.
  - by rewrite reg_set_same.
  - done.
Qed.

Lemma join_other_type_creates_room_witness :
  on_join [] "c1" (join_data "R1" "admin")
  = ([("R1", mkRoom [] [])],
     [Emit (ToSid "c1")
        (Ev_room_joined "admin joined" "admin" false false false)]).
Proof.
  apply (join_other_type_creates_room [] "c1" (join_data "R1" "admin")
           "R1" "admin"); done.
Defined.

(** C2, at the failing input: asked to join "R1" as "admin", a type that is
    neither "sender" nor "receiver", [on_join] emits no error at all, adds
    an entry to the registry and replies [room_joined]. *)
Theorem join_invalid_role_not_rejected :
  let '(reg', effs) := on_join [] "c1" (join_data "R1" "admin") in
  (Emit (ToSid "c1") (Ev_error "Invalid room code or device type") ∉ effs)
  ∧ reg' = [("R1", mkRoom [] [])]
  ∧ effs = [Emit (ToSid "c1")
              (Ev_room_joined "admin joined" "admin" false false false)].
Proof.
  vm_compute. split; [|done].
  intros Hin. apply list_elem_of_singleton in Hin. discriminate Hin.
Qed.

(** ** The registry invariant *)

(** C1, at the failing input: after a single [join_room] for "R1" with
    type "admin" the registry holds an entry for "R1" whose senders and
    receivers are both empty. *)
Theorem join_invalid_role_leaves_empty_room :
  ∃ effs,
    run [] [JoinRoom "c1" (join_data "R1" "admin")]
    = Some ([("R1", mkRoom [] [])], effs)
    ∧ ¬ no_empty_room [("R1", mkRoom [] [])].
Proof.
  eexists. split; [vm_compute; reflexivity|].
  intros Hne. specialize (Hne "R1" (mkRoom [] [])).
  discriminate Hne. left.
Qed.

(** The other operations keep every entry non-empty: a disconnect deletes
    what it empties, the relays do not touch the registry, and a join as
    "sender" or "receiver" puts the connection in the room. *)
Lemma leave_all_no_empty_room sid (reg : registry) :
  no_empty_room (leave_all sid reg).
Proof. by intros k r' (r & _ & _ & He)%leave_all_elem. Qed.

Lemma join_valid_role_no_empty_room (reg : registry) sid code ty :
  ty = "sender" ∨ ty = "receiver" →
  no_empty_room reg → no_empty_room (join_checked reg sid code ty).1.
Proof.
  intros Hty Hne k r [Hin|(-> & -> & _)]%join_checked_elem; [by eapply Hne|].
  unfold room_empty.
  destruct Hty as [-> | ->].
  - pose proof (room_join_sender_in sid
                  (default (mkRoom [] []) (reg_get code reg))) as Hin.
    destruct (senders _); [by apply elem_of_nil in Hin|done].
  - pose proof (room_join_receiver_in sid
                  (default (mkRoom [] []) (reg_get code reg))) as Hin.
    destruct (receivers _); [by apply elem_of_nil in Hin|].
    by rewrite andb_false_r.
Qed.

(** ** Relays *)

(** C4: [send_text] with a missing or empty code or text does nothing at
    all; with both present it relays the whole payload as [receive_text] to
    the group [{code}_recv] when the room has a receiver, and otherwise
    answers the sender with the error "No receivers in room". *)
Theorem send_text_routing (reg : registry) (sid : string) (data : payload) :
  (field_missing data "code" ∨ field_missing data "text" →
   handle_text reg sid data = (reg, []))
  ∧ (∀ code text,
       data !! "code" = Some code → data !! "text" = Some text →
       code ≠ "" → text ≠ "" →
       (has_receiver reg code →
        handle_text reg sid data
        = (reg, [Emit (ToGroup (code +:+ "_recv") None)
                   (Ev_receive_text data)]))
       ∧ (¬ has_receiver reg code →
          handle_text reg sid data
          = (reg, [Emit (ToSid sid) (Ev_error "No receivers in room")]))).
Proof.
  split.
  - unfold handle_text, field_missing.
    intros [[Hc|Hc]|[Ht|Ht]]; rewrite ?Hc, ?Ht; simpl; try done.
    + by destruct (data !! "code") as [c|]; [rewrite andb_false_r|].
    + by destruct (data !! "code") as [c|]; [rewrite andb_false_r|].
  - intros code text Hc Ht Hcne Htne. unfold handle_text.
    rewrite Hc, Ht. simpl.
    apply str_truthy_true in Hcne, Htne. rewrite Hcne, Htne. simpl.
    split; intros Hrecv.
    + apply room_has_receivers_spec in Hrecv. by rewrite Hrecv.
    + destruct (room_has_receivers reg code) eqn:Hb; [|done].
      by apply room_has_receivers_spec in Hb.
Qed.

Lemma send_text_routing_witness :
  handle_text [("R1", mkRoom ["s1"] ["r1"])] "s1" (text_data "" "hi")
  = ([("R1", mkRoom ["s1"] ["r1"])], [])
  ∧ handle_text [("R1", mkRoom ["s1"] ["r1"])] "s1" (text_data "R1" "hi")
    = ([("R1", mkRoom ["s1"] ["r1"])],
       [Emit (ToGroup "R1_recv" None) (Ev_receive_text (text_data "R1" "hi"))])
  ∧ handle_text [("R1", mkRoom ["s1"] [])] "s1" (text_data "R1" "hi")
    = ([("R1", mkRoom ["s1"] [])],
       [Emit (ToSid "s1") (Ev_error "No receivers in room")]).
Proof.
  split_and!.
  - apply send_text_routing. left. right. reflexivity.
  - destruct (send_text_routing [("R1", mkRoom ["s1"] ["r1"])] "s1"
                (text_data "R1" "hi")) as [_ Hboth].
    destruct (Hboth "R1" "hi") as [Hrelay _]; [reflexivity|reflexivity|done..|].
    apply Hrelay.
    exists (mkRoom ["s1"] ["r1"]), "r1". split; [reflexivity|left].
  - destruct (send_text_routing [("R1", mkRoom ["s1"] [])] "s1"
                (text_data "R1" "hi")) as [_ Hboth].
    destruct (Hboth "R1" "hi") as [_ Herr]; [reflexivity|reflexivity|done..|].
    apply Herr.
    intros (room & x & [= <-] & Hx). by apply elem_of_nil in Hx.
Defined.

(** C7: [send_live_control] with a missing or empty code or control answers
    the sender with the error "Invalid live control payload" and nothing
    else; with both present it relays the payload as
    [receive_live_control] to the group [{code}_recv] when the room has a
    receiver, and otherwise answers with the error "No receivers in room". *)
Theorem send_live_control_routing (reg : registry) (sid : string)
    (data : payload) :
  (field_missing data "code" ∨ field_missing data "control" →
   handle_live_control reg sid data
   = (reg, [Emit (ToSid sid) (Ev_error "Invalid live control payload")]))
  ∧ (∀ code control,
       data !! "code" = Some code → data !! "control" = Some control →
       code ≠ "" → control ≠ "" →
       (has_receiver reg code →
        handle_live_control reg sid data
        = (reg, [Emit (ToGroup (code +:+ "_recv") None)
                   (Ev_receive_live_control data)]))
       ∧ (¬ has_receiver reg code →
          handle_live_control reg sid data
          = (reg, [Emit (ToSid sid) (Ev_error "No receivers in room")]))).
Proof.
  split.
  - unfold handle_live_control, field_missing.
    destruct (data !! "code") as [code|], (data !! "control") as [ctl|];
      try done.
    intros [[?|[= ->]]|[?|[= ->]]]; try done. by rewrite orb_true_r.
  - intros code control Hc Ht Hcne Htne. unfold handle_live_control.
    rewrite Hc, Ht.
    apply str_truthy_true in Hcne, Htne. rewrite Hcne, Htne. simpl.
    split; intros Hrecv.
    + apply room_has_receivers_spec in Hrecv. by rewrite Hrecv.
    + destruct (room_has_receivers reg code) eqn:Hb; [|done].
      by apply room_has_receivers_spec in Hb.
Qed.

Lemma send_live_control_routing_witness :
  handle_live_control [("R1", mkRoom ["s1"] ["r1"])] "s1" (control_data "R1" "")
  = ([("R1", mkRoom ["s1"] ["r1"])],
     [Emit (ToSid "s1") (Ev_error "Invalid live control payload")])
  ∧ handle_live_control [("R1", mkRoom ["s1"] ["r1"])] "s1"
      (control_data "R1" "clear")
    = ([("R1", mkRoom ["s1"] ["r1"])],
       [Emit (ToGroup "R1_recv" None)
          (Ev_receive_live_control (control_data "R1" "clear"))])
  ∧ handle_live_control [] "s1" (control_data "R1" "clear")
    = ([], [Emit (ToSid "s1") (Ev_error "No receivers in room")]).
Proof.
  split_and!.
  - apply send_live_control_routing. right. right. reflexivity.
  - destruct (send_live_control_routing [("R1", mkRoom ["s1"] ["r1"])] "s1"
                (control_data "R1" "clear")) as [_ Hboth].
    destruct (Hboth "R1" "clear") as [Hrelay _];
      [reflexivity|reflexivity|done..|].
    apply Hrelay.
    exists (mkRoom ["s1"] ["r1"]), "r1". split; [reflexivity|left].
  - destruct (send_live_control_routing [] "s1"
                (control_data "R1" "clear")) as [_ Hboth].
    destruct (Hboth "R1" "clear") as [_ Herr];
      [reflexivity|reflexivity|done..|].
    apply Herr.
    by intros (room & x & [= ] & _).
Defined.

(** ** Role-sets *)

(** C3, at the failing input: the same connection joins "R1" as "sender"
    and then as "receiver"; [on_join] appends it to the receivers without
    taking it out of the senders, so it ends up in both role-sets of the
    room, against the "strict role separation" of the docstring. *)
Theorem same_connection_in_both_roles :
  ∃ reg effs,
    run [] [JoinRoom "c1" (join_data "R1" "sender");
            JoinRoom "c1" (join_data "R1" "receiver")] = Some (reg, effs)
    ∧ ¬ role_exclusive reg.
Proof.
  eexists _, _. split; [vm_compute; reflexivity|].
  intros Hex. apply (Hex "R1" (mkRoom ["c1"] ["c1"]) "c1"); [reflexivity|].
  split; left.
Qed.

(** Where the separation of roles does hold, and where it breaks: after
    every sequence of operations a connection is in the senders of a room
    only if it asked to join that room as "sender", and in its receivers
    only if it asked to join it as "receiver", so only a connection that
    joined under both roles can be in both role-sets.  And such a
    connection is: joining under one role does not take it out of the
    other role-set. *)
Theorem both_roles_only_by_joining_both :
  (∀ (reqs : list request) (reg : registry) effs code room sid,
     run [] reqs = Some (reg, effs) → reg_get code reg = Some room →
     (sid ∈ senders room → joined_as sid code "sender" reqs)
     ∧ (sid ∈ receivers room → joined_as sid code "receiver" reqs))
  ∧ (∀ (reg : registry) sid code d1 d2 r1 r2,
       code ≠ "" →
       d1 !! "code" = Some code → d1 !! "type" = Some r1 →
       d2 !! "code" = Some code → d2 !! "type" = Some r2 →
       (r1 = "sender" ∧ r2 = "receiver") ∨ (r1 = "receiver" ∧ r2 = "sender") →
       ∃ room,
         reg_get code (on_join (on_join reg sid d1).1 sid d2).1 = Some room
         ∧ sid ∈ senders room ∧ sid ∈ receivers room).
Proof.
  split.
  - intros reqs reg effs code room sid Hrun Hget.
    apply (run_members_joined reqs [] [] reg effs wf_nil); [|done|].
    + by intros ??? []%elem_of_nil.
    + by apply reg_get_elem.
  - intros reg sid code d1 d2 r1 r2 Hcode Hc1 Ht1 Hc2 Ht2 Hroles.
    rewrite (on_join_checked reg sid d1 code r1)
      by (destruct Hroles as [[-> ->]|[-> ->]]; done).
    rewrite (on_join_checked _ sid d2 code r2)
      by (destruct Hroles as [[-> ->]|[-> ->]]; done).
    rewrite join_checked_get, join_checked_get. simpl. eexists. split; [done|].
    destruct Hroles as [[-> ->]|[-> ->]].
    + split; [|apply room_join_receiver_in].
      rewrite room_join_receiver_senders. apply room_join_sender_in.
    + split; [apply room_join_sender_in|].
      unfold room_join at 1. rewrite decide_True by done.
      destruct (bool_decide _); apply room_join_receiver_in.
Qed.

Lemma both_roles_only_by_joining_both_witness :
  (joined_as "c1" "R1" "sender"
     [JoinRoom "c1" (join_data "R1" "sender");
      JoinRoom "c1" (join_data "R1" "receiver")]
   ∧ joined_as "c1" "R1" "receiver"
       [JoinRoom "c1" (join_data "R1" "sender");
        JoinRoom "c1" (join_data "R1" "receiver")])
  ∧ ∃ room,
      reg_get "R1"
        (on_join (on_join [] "c1" (join_data "R1" "receiver")).1 "c1"
           (join_data "R1" "sender")).1 = Some room
      ∧ "c1" ∈ senders room ∧ "c1" ∈ receivers room.
Proof.
  destruct both_roles_only_by_joining_both as [Honly Hboth]. split.
  - destruct (Honly
                [JoinRoom "c1" (join_data "R1" "sender");
                 JoinRoom "c1" (join_data "R1" "receiver")]
                [("R1", mkRoom ["c1"] ["c1"])]
                [JoinGroup "c1" "R1";
                 Emit (ToSid "c1")
                   (Ev_room_joined "sender joined" "sender" false true false);
                 JoinGroup "c1" "R1"; JoinGroup "c1" "R1_recv";
                 Emit (ToSid "c1")
                   (Ev_room_joined "receiver joined" "receiver" true true true);
                 Emit (ToGroup "R1" (Some "c1"))
                   (Ev_room_status "active"
                      "Both sender and receiver connected")]
                "R1" (mkRoom ["c1"] ["c1"]) "c1") as [Hs Hr];
      [vm_compute; reflexivity|reflexivity|].
    split; [apply Hs|apply Hr]; left.
  - apply (Hboth [] "c1" "R1" (join_data "R1" "receiver")
             (join_data "R1" "sender") "receiver" "sender"); try done.
    by right.
Defined.

(** C8: join is idempotent.  Whatever the requests served, no senders or
    receivers list names a connection twice; and serving the same
    [join_room] request a second time leaves the registry as the first
    left it. *)
Theorem join_idempotent :
  (∀ reqs : list request,
     ∃ (reg : registry) effs,
       run [] reqs = Some (reg, effs)
       ∧ ∀ code room, reg_get code reg = Some room →
           NoDup (senders room) ∧ NoDup (receivers room))
  ∧ (∀ (reg : registry) sid data,
       (on_join (on_join reg sid data).1 sid data).1
       = (on_join reg sid data).1).
Proof.
  split.
  - intros reqs. destruct (run_total reqs [] wf_nil) as (reg & effs & Hrun).
    exists reg, effs. split; [done|]. intros code room Hget.
    pose proof (run_wf reqs [] reg effs wf_nil Hrun) as [_ Hrooms].
    rewrite Forall_forall in Hrooms.
    apply (Hrooms (code, room)). by apply reg_get_elem.
  - intros reg sid data.
    destruct (on_join_cases reg sid data)
      as [Herr|(code & ty & Hc & Ht & Hcne & Htne & Hjoin)].
    + rewrite Herr. simpl. by rewrite Herr.
    + rewrite Hjoin. rewrite (on_join_checked _ sid data code ty) by done.
      rewrite (join_checked_closed (join_checked reg sid code ty).1). simpl.
      rewrite join_checked_get. simpl.
      rewrite room_join_idem. apply reg_set_same, join_checked_get.
Qed.

Lemma join_idempotent_witness :
  NoDup (senders (mkRoom ["c1"] []))
  ∧ (on_join (on_join [] "c1" (join_data "R1" "sender")).1 "c1"
       (join_data "R1" "sender")).1
    = (on_join [] "c1" (join_data "R1" "sender")).1.
Proof.
  destruct join_idempotent as [Hnodup Hidem]. split; [|apply Hidem].
  destruct (Hnodup [JoinRoom "c1" (join_data "R1" "sender");
                    JoinRoom "c1" (join_data "R1" "sender")])
    as (reg & effs & Hrun & Hrooms).
  vm_compute in Hrun. injection Hrun as <- _.
  apply (Hrooms "R1"). reflexivity.
Defined.

(** ** Disconnect *)

Lemma filter_other_id (x : string) (l : list string) :
  x ∉ l → filter (.≠ x) l = l.
Proof.
  induction l as [|y l IH]; [done|].
  rewrite not_elem_of_cons. intros [Hne Hl].
  rewrite filter_cons_True by done. by rewrite IH.
Qed.

Lemma remove_first_filter (x : string) (l : list string) :
  NoDup l → remove_first x l = filter (.≠ x) l.
Proof.
  induction 1 as [|y l Hy Hl IH]; simpl; [done|].
  case_decide as Heq.
  - subst y. rewrite filter_cons_False by (by intros ?).
    by rewrite filter_other_id.
  - rewrite filter_cons_True by done. by rewrite IH.
Qed.

(** C5, counterexample: after a [join_room] with type "admin" left "R1"
    empty, the disconnect of a connection that is in no room deletes the
    entry of "R1". *)
Lemma disconnect_of_stranger_mutates :
  ∃ (reg reg' : registry) effs,
    run [] [JoinRoom "c1" (join_data "R1" "admin")] = Some (reg, effs)
    ∧ in_no_room "c2" reg
    ∧ handle_disconnect reg "c2" = Some (reg', [])
    ∧ reg' ≠ reg.
Proof.
  eexists _, _, _. split_and!; [vm_compute; reflexivity| |reflexivity|done].
  intros code room [= -> ->]%list_elem_of_singleton.
  split; apply not_elem_of_nil.
Qed.

(** C5, amended: on a disconnect, in every room of the registry the
    connection is removed from the role-sets that contain it and the other
    members stay; a room whose two sets are then both empty is deleted;
    where the connection was a sender and the room has receivers, a
    [room_status] "sender_left" goes to the group [{code}_recv] (the
    receivers are looked at before the connection itself is taken out of
    them, so a fortiori when some remain after the removal), and nothing
    else is emitted.  The disconnect of a connection that is in no
    room emits nothing, and it changes nothing in a registry that holds no
    empty room. *)
Theorem disconnect_cleans_up (reg : registry) (sid : string) :
  reachable reg →
  ∃ (reg' : registry) effs,
    handle_disconnect reg sid = Some (reg', effs)
    ∧ (∀ code,
         reg_get code reg'
         = match reg_get code reg with
           | None => None
           | Some room =>
               let room' := mkRoom (filter (.≠ sid) (senders room))
                              (filter (.≠ sid) (receivers room)) in
               if room_empty room' then None else Some room'
           end)
    ∧ (∀ code room,
         reg_get code reg = Some room →
         sid ∈ senders room → receivers room ≠ [] →
         Emit (ToGroup (code +:+ "_recv") None)
           (Ev_room_status "sender_left" "Sender has left the room") ∈ effs)
    ∧ (∀ e, e ∈ effs →
         ∃ code room,
           reg_get code reg = Some room ∧ sid ∈ senders room
           ∧ e = Emit (ToGroup (code +:+ "_recv") None)
                   (Ev_room_status "sender_left" "Sender has left the room"))
    ∧ (in_no_room sid reg →
       effs = [] ∧ (no_empty_room reg → reg' = reg)).
Proof.
  intros [Hkeys Hrooms]%reachable_wf.
  exists (leave_all sid reg), (leave_effects sid reg).
  split; [by apply handle_disconnect_closed|]. split_and!.
  - intros code. rewrite leave_all_get by done.
    destruct (reg_get code reg) as [room|] eqn:Hget; [|done].
    rewrite Forall_forall in Hrooms.
    destruct (Hrooms (code, room)) as [Hs Hr]; [by apply reg_get_elem|].
    simpl in Hs, Hr. unfold room_leave.
    by rewrite !remove_first_filter.
  - intros code room Hget Hs Hr. apply leave_effects_elem.
    exists code, room. split_and!; [by apply reg_get_elem|done..].
  - intros e (code & room & Hin & Hs & _ & ->)%leave_effects_elem.
    exists code, room. split_and!; [by apply elem_reg_get|done..].
  - intros Hno. split; [by apply leave_effects_none|].
    intros Hne. by apply leave_all_id.
Qed.

Lemma disconnect_cleans_up_witness :
  ∃ (reg' : registry) effs,
    handle_disconnect [("R1", mkRoom ["s1"] ["r1"])] "s1" = Some (reg', effs)
    ∧ reg_get "R1" reg' = Some (mkRoom [] ["r1"])
    ∧ Emit (ToGroup "R1_recv" None)
        (Ev_room_status "sender_left" "Sender has left the room") ∈ effs.
Proof.
  destruct (disconnect_cleans_up [("R1", mkRoom ["s1"] ["r1"])] "s1")
    as (reg' & effs & Hrun & Hget & Hemit & _).
  - exists [JoinRoom "s1" (join_data "R1" "sender");
            JoinRoom "r1" (join_data "R1" "receiver")].
    eexists. vm_compute. reflexivity.
  - exists reg', effs. split_and!; [done|by rewrite Hget|].
    apply (Hemit "R1" (mkRoom ["s1"] ["r1"])); [reflexivity|left|done].
Defined.

(** ** join_room: the reply *)

(** C6: a [join_room] with non-empty code and type subscribes the
    connection to its groups and replies [room_joined] to it, with
    [has_sender] and [has_receiver] telling whether the room's lists are
    non-empty after the join and [room_active] their conjunction; the only
    broadcast is [room_status] "active" to the group of the room, skipping
    the joining connection, and it is sent exactly when [room_active] is
    true.  Joining a code as "sender" and then as "receiver" gives
    [room_active = true] in the second reply, and the broadcast. *)
Theorem join_reply_and_activation :
  (∀ (reg : registry) sid data code ty,
     data !! "code" = Some code → data !! "type" = Some ty →
     code ≠ "" → ty ≠ "" →
     ∃ (reg' : registry) room subs,
       let has_sender := bool_decide (0 < length (senders room)) in
       let has_receiver := bool_decide (0 < length (receivers room)) in
       let room_active := has_sender && has_receiver in
       reg_get code reg' = Some room
       ∧ Forall (λ e, ∃ group, e = JoinGroup sid group) subs
       ∧ on_join reg sid data
         = (reg',
            subs
            ++ [Emit (ToSid sid)
                  (Ev_room_joined (ty +:+ " joined") ty
                     room_active has_sender has_receiver)]
            ++ (if room_active
                then [Emit (ToGroup code (Some sid))
                        (Ev_room_status "active"
                           "Both sender and receiver connected")]
                else []))
       ∧ (∀ group skip ev,
            Emit (ToGroup group skip) ev ∈ (on_join reg sid data).2 ↔
            room_active = true ∧ group = code ∧ skip = Some sid
            ∧ ev = Ev_room_status "active"
                     "Both sender and receiver connected"))
  ∧ (∀ (reg : registry) s1 s2 d1 d2 code,
       code ≠ "" →
       d1 !! "code" = Some code → d1 !! "type" = Some "sender" →
       d2 !! "code" = Some code → d2 !! "type" = Some "receiver" →
       (on_join (on_join reg s1 d1).1 s2 d2).2
       = [JoinGroup s2 code; JoinGroup s2 (code +:+ "_recv");
          Emit (ToSid s2)
            (Ev_room_joined "receiver joined" "receiver" true true true);
          Emit (ToGroup code (Some s2))
            (Ev_room_status "active" "Both sender and receiver connected")]).
Proof.
  split.
  - intros reg sid data code ty Hc Ht Hcne Htne.
    rewrite (on_join_checked reg sid data code ty) by done.
    set (room := room_join sid ty (default (mkRoom [] []) (reg_get code reg))).
    exists (join_checked reg sid code ty).1, room, (join_groups sid code ty).
    simpl. split_and!.
    + apply join_checked_get.
    + unfold join_groups.
      destruct (decide (ty = "sender")); [|destruct (decide (ty = "receiver"))];
        repeat constructor; eauto.
    + by rewrite join_checked_closed.
    + intros group skip ev. rewrite join_checked_closed. simpl.
      fold room. unfold joined_reply, room_is_active, active_status.
      rewrite elem_of_app, elem_of_cons. split.
      * intros [Hin|[[=]|Hin]].
        { unfold join_groups in Hin.
          destruct (decide (ty = "sender"));
            [|destruct (decide (ty = "receiver"))];
            repeat (apply elem_of_cons in Hin as [[=]|Hin]);
            by apply elem_of_nil in Hin. }
        destruct (_ && _); [|by apply elem_of_nil in Hin].
        by apply list_elem_of_singleton in Hin as [= -> -> ->].
      * intros (-> & -> & -> & ->). right. right. left.
  - intros reg s1 s2 d1 d2 code Hcne Hc1 Ht1 Hc2 Ht2.
    rewrite (on_join_checked reg s1 d1 code "sender") by done.
    rewrite (on_join_checked _ s2 d2 code "receiver") by done.
    rewrite (join_checked_closed (join_checked reg s1 code "sender").1).
    simpl. rewrite join_checked_get. simpl.
    set (room1 := room_join s1 "sender" _).
    unfold joined_reply, room_is_active.
    rewrite room_join_receiver_senders, !list_truthy_length.
    pose proof (room_join_sender_in s1
                  (default (mkRoom [] []) (reg_get code reg))) as Hs.
    pose proof (room_join_receiver_in s2 room1) as Hr.
    fold room1 in Hs.
    destruct (senders room1); [by apply elem_of_nil in Hs|].
    destruct (receivers _); [by apply elem_of_nil in Hr|].
    done.
Qed.

Lemma join_reply_and_activation_witness :
  (∃ (reg' : registry) room,
     reg_get "R1" reg' = Some room
     ∧ Emit (ToSid "s2")
         (Ev_room_joined "sender joined" "sender"
            (bool_decide (0 < length (senders room))
             && bool_decide (0 < length (receivers room)))
            (bool_decide (0 < length (senders room)))
            (bool_decide (0 < length (receivers room))))
       ∈ (on_join [("R1", mkRoom ["s1"] [])] "s2"
            (join_data "R1" "sender")).2)
  ∧ (on_join [("R1", mkRoom ["s1"] [])] "r1" (join_data "R1" "receiver")).2
    = [JoinGroup "r1" "R1"; JoinGroup "r1" "R1_recv";
       Emit (ToSid "r1")
         (Ev_room_joined "receiver joined" "receiver" true true true);
       Emit (ToGroup "R1" (Some "r1"))
         (Ev_room_status "active" "Both sender and receiver connected")].
Proof.
  destruct join_reply_and_activation as [Hone Htwo]. split.
  - destruct (Hone [("R1", mkRoom ["s1"] [])] "s2" (join_data "R1" "sender")
                "R1" "sender") as (reg' & room & subs & Hget & _ & Heq & _);
      [reflexivity|reflexivity|done|done|].
    exists reg', room. split; [done|].
    rewrite Heq. simpl. rewrite elem_of_app. right. left.
  - apply (Htwo [] "s1" "r1" (join_data "R1" "sender")
             (join_data "R1" "receiver") "R1"); done.
Defined.

(** * Further properties of the handlers *)

(** ** Disconnect *)

Lemma leave_all_purges sid (reg : registry) :
  wf reg → in_no_room sid (leave_all sid reg).
Proof.
  intros [Hkeys Hrooms] code room' (room & Hin & -> & _)%leave_all_elem.
  rewrite Forall_forall in Hrooms. destruct (Hrooms _ Hin) as [Hs Hr].
  split; by apply remove_first_gone.
Qed.

(** X1: after a disconnect the connection is in no role-set of any room,
    and no entry of the registry is empty, whatever was there before. *)
Theorem disconnect_leaves_no_trace (reg reg' : registry) (sid : string) effs :
  reachable reg →
  handle_disconnect reg sid = Some (reg', effs) →
  in_no_room sid reg' ∧ no_empty_room reg'.
Proof.
  intros Hwf%reachable_wf.
  rewrite handle_disconnect_closed by apply Hwf. intros [= <- <-].
  split; [by apply leave_all_purges|apply leave_all_no_empty_room].
Qed.

Lemma disconnect_leaves_no_trace_witness :
  in_no_room "s1" [("R1", mkRoom [] ["r1"])]
  ∧ no_empty_room [("R1", mkRoom [] ["r1"])].
Proof.
  apply (disconnect_leaves_no_trace [("R1", mkRoom ["s1"] ["r1"])] _ "s1"
           [sender_left "R1"]).
  - exists [JoinRoom "s1" (join_data "R1" "sender");
            JoinRoom "r1" (join_data "R1" "receiver")].
    eexists. vm_compute. reflexivity.
  - reflexivity.
Defined.

(** X2: disconnect is idempotent: the second disconnect of the same
    connection changes nothing and emits nothing. *)
Theorem disconnect_twice (reg reg' : registry) (sid : string) effs :
  reachable reg →
  handle_disconnect reg sid = Some (reg', effs) →
  handle_disconnect reg' sid = Some (reg', []).
Proof.
  intros Hwf%reachable_wf.
  rewrite handle_disconnect_closed by apply Hwf. intros [= <- <-].
  rewrite handle_disconnect_closed by by apply leave_all_wf.
  pose proof (leave_all_purges sid reg Hwf) as Hno.
  pose proof (leave_all_no_empty_room sid reg) as Hne.
  by rewrite leave_all_id, leave_effects_none.
Qed.

Lemma disconnect_twice_witness :
  handle_disconnect [("R1", mkRoom [] ["r1"])] "s1"
  = Some ([("R1", mkRoom [] ["r1"])], []).
Proof.
  apply (disconnect_twice [("R1", mkRoom ["s1"] ["r1"])] _ "s1"
           [sender_left "R1"]).
  - exists [JoinRoom "s1" (join_data "R1" "sender");
            JoinRoom "r1" (join_data "R1" "receiver")].
    eexists. vm_compute. reflexivity.
  - reflexivity.
Defined.

(** X3: the receivers are looked at before the connection is taken out of
    them: when the disconnecting connection is the only sender and the only
    receiver of a room, "sender_left" is still sent to the receiver group,
    and the room is deleted. *)
Theorem disconnect_notifies_deleted_room (reg reg' : registry)
    (sid code : string) effs :
  reachable reg →
  reg_get code reg = Some (mkRoom [sid] [sid]) →
  handle_disconnect reg sid = Some (reg', effs) →
  Emit (ToGroup (code +:+ "_recv") None)
    (Ev_room_status "sender_left" "Sender has left the room") ∈ effs
  ∧ reg_get code reg' = None.
Proof.
  intros [Hkeys Hrooms]%reachable_wf Hget.
  rewrite handle_disconnect_closed by done. intros [= <- <-]. split.
  - apply leave_effects_elem. exists code, (mkRoom [sid] [sid]).
    split_and!; [by apply reg_get_elem|left|done|done].
  - rewrite leave_all_get, Hget by done.
    unfold room_leave, room_empty. simpl. by rewrite decide_True.
Qed.

Lemma disconnect_notifies_deleted_room_witness :
  Emit (ToGroup "R1_recv" None)
    (Ev_room_status "sender_left" "Sender has left the room")
  ∈ [sender_left "R1"]
  ∧ reg_get "R1" [] = None.
Proof.
  apply (disconnect_notifies_deleted_room [("R1", mkRoom ["c1"] ["c1"])] []
           "c1" "R1" [sender_left "R1"]).
  - exists [JoinRoom "c1" (join_data "R1" "sender");
            JoinRoom "c1" (join_data "R1" "receiver")].
    eexists. vm_compute. reflexivity.
  - reflexivity.
  - reflexivity.
Defined.

(** ** Rooms stay inhabited under the two roles *)

Lemma step_no_empty_room (reg reg' : registry) req effs :
  join_role_ok req → no_empty_room reg →
  step reg req = Some (reg', effs) → no_empty_room reg'.
Proof.
  intros Hok Hne. destruct req as [sid|sid|sid data|sid data|sid data]; simpl.
  - by intros [= <- <-].
  - unfold handle_disconnect. intros Hloop.
    assert (∀ keys (reg0 : registry) reg1 effs1,
              no_empty_room reg0 →
              disconnect_loop sid keys reg0 = Some (reg1, effs1) →
              no_empty_room reg1) as Hgen; [|by eapply Hgen].
    clear. induction keys as [|k keys IH]; intros reg0 reg1 effs1 Hne; simpl.
    { by intros [= <- <-]. }
    destruct (reg_get k reg0) as [room|]; [|done].
    destruct (disconnect_room sid k room reg0) as [reg2 effs2] eqn:Hroom.
    destruct (disconnect_loop sid keys reg2) as [[reg3 effs3]|] eqn:Hloop;
      [|done].
    intros [= <- <-]. eapply IH; [|done].
    unfold disconnect_room in Hroom.
    set (room2 := if bool_decide (sid ∈ receivers room) then _ else _) in Hroom.
    fold (room_empty room2) in Hroom.
    destruct (room_empty room2) eqn:Hempty; injection Hroom as <- _.
    + intros c r Hin. clear -Hin Hne.
      induction reg0 as [|[k0 r0] reg0 IH]; simpl in Hin.
      * rewrite decide_True in Hin by done. by apply elem_of_nil in Hin.
      * destruct (decide (k0 = k)); simpl in Hin.
        { rewrite decide_True in Hin by done.
          apply (Hne c r). by right. }
        rewrite decide_False in Hin by done.
        apply elem_of_cons in Hin as [[= -> ->]|Hin]; [apply (Hne k0 r0); left|].
        apply IH; [|done]. intros c' r' Hin'. apply (Hne c' r'). by right.
    + intros c r [[= -> ->]|Hin]%reg_set_elem; [done|by apply (Hne c r)].
  - intros [= Heq]. apply (f_equal fst) in Heq. simpl in Heq. subst reg'.
    destruct (on_join_cases reg sid data)
      as [->|(code & ty & Hc & Ht & Hcne & Htne & ->)]; [done|].
    apply join_valid_role_no_empty_room; [|done].
    simpl in Hok. unfold field_missing in Hok. rewrite Hc, Ht in Hok.
    destruct Hok as [[?|?]|[[?|?]|[?|?]]]; naive_solver.
  - intros [= Heq]. apply (f_equal fst) in Heq. simpl in Heq.
    by rewrite handle_text_reg in Heq; subst.
  - intros [= Heq]. apply (f_equal fst) in Heq. simpl in Heq.
    by rewrite handle_live_control_reg in Heq; subst.
Qed.

(** X4: as long as every [join_room] served names "sender" or "receiver"
    (or is turned down by the guard), no entry of the registry ever has
    both role-sets empty. *)
Theorem valid_roles_keep_rooms_inhabited (reqs : list request)
    (reg : registry) effs :
  Forall join_role_ok reqs →
  run [] reqs = Some (reg, effs) → no_empty_room reg.
Proof.
  assert (∀ (reg0 : registry), no_empty_room reg0 →
            Forall join_role_ok reqs →
            run reg0 reqs = Some (reg, effs) → no_empty_room reg) as Hgen.
  { revert effs. induction reqs as [|req reqs IH]; intros effs reg0 Hne Hok; simpl.
    - by intros [= <- <-].
    - apply Forall_cons in Hok as [Hreq Hok].
      destruct (step reg0 req) as [[reg1 effs1]|] eqn:Hstep; [|done].
      destruct (run reg1 reqs) as [[reg2 effs2]|] eqn:Hrun; [|done].
      intros [= <- <-]. eapply IH; [|done..].
      by eapply step_no_empty_room. }
  apply Hgen. by intros ?? []%elem_of_nil.
Qed.

Lemma valid_roles_keep_rooms_inhabited_witness :
  no_empty_room [("R1", mkRoom ["s1"] [])].
Proof.
  apply (valid_roles_keep_rooms_inhabited
           [JoinRoom "s1" (join_data "R1" "sender");
            JoinRoom "s2" (join_data "" "sender");
            SendText "s1" (text_data "R1" "hi")]
           _
           [JoinGroup "s1" "R1";
            Emit (ToSid "s1")
              (Ev_room_joined "sender joined" "sender" false true false);
            Emit (ToSid "s2") (Ev_error "Invalid room code or device type");
            Emit (ToSid "s1") (Ev_error "No receivers in room")]).
  - apply Forall_cons. split; [right; right; left; reflexivity|].
    apply Forall_cons. split; [left; right; reflexivity|].
    apply Forall_cons. split; [exact I|apply Forall_nil_2].
  - vm_compute. reflexivity.
Defined.

(** ** What a join changes *)

Lemma on_join_get_other (reg : registry) sid (data : payload) code' :
  data !! "code" ≠ Some code' →
  reg_get code' (on_join reg sid data).1 = reg_get code' reg.
Proof.
  intros Hother.
  destruct (on_join_cases reg sid data)
    as [->|(code & ty & Hc & _ & _ & _ & ->)]; [done|].
  assert (code ≠ code') as Hne by congruence.
  rewrite join_checked_closed. simpl.
  destruct (reg_get code reg) eqn:Hget.
  - by apply reg_get_set_ne.
  - rewrite reg_get_app_new. rewrite decide_False by done.
    by destruct (reg_get code' reg).
Qed.

(** X5: a [join_room] leaves every room other than the one it names as it
    was. *)
Theorem join_leaves_other_rooms (reg : registry) (sid : string)
    (data : payload) (code' : string) :
  data !! "code" ≠ Some code' →
  reg_get code' (on_join reg sid data).1 = reg_get code' reg.
Proof. apply on_join_get_other. Qed.

Lemma join_leaves_other_rooms_witness :
  reg_get "R1"
    (on_join [("R1", mkRoom ["s1"] [])] "c1" (join_data "R2" "receiver")).1
  = Some (mkRoom ["s1"] []).
Proof.
  apply (join_leaves_other_rooms [("R1", mkRoom ["s1"] [])] "c1"
           (join_data "R2" "receiver") "R1").
  intros Heq. vm_compute in Heq. discriminate Heq.
Defined.

(** X6: a [join_room] never deletes a room and never takes a connection
    out of it: the room it names is left as it was, or with the joining
    connection appended to one of its two lists. *)
Theorem join_only_appends (reg : registry) (sid : string) (data : payload)
    (code : string) (room : Room) :
  reg_get code reg = Some room →
  ∃ room',
    reg_get code (on_join reg sid data).1 = Some room'
    ∧ (room' = room
       ∨ ((sid ∉ senders room)
          ∧ room' = mkRoom (senders room ++ [sid]) (receivers room))
       ∨ ((sid ∉ receivers room)
          ∧ room' = mkRoom (senders room) (receivers room ++ [sid]))).
Proof.
  intros Hget.
  destruct (decide (data !! "code" = Some code)) as [Hc|Hc];
    [|exists room; split; [by rewrite on_join_get_other|by left]].
  destruct (on_join_cases reg sid data)
    as [->|(code0 & ty & Hc0 & _ & _ & _ & ->)]; [by exists room; auto|].
  assert (code0 = code) as -> by congruence.
  rewrite join_checked_get, Hget. simpl. eexists. split; [done|].
  unfold room_join.
  destruct (decide (ty = "sender")); [|destruct (decide (ty = "receiver"))].
  - destruct (bool_decide_reflect (sid ∈ senders room)); auto.
  - destruct (bool_decide_reflect (sid ∈ receivers room)); auto.
  - auto.
Qed.

Lemma join_only_appends_witness :
  ∃ room',
    reg_get "R1"
      (on_join [("R1", mkRoom ["s1"] [])] "r1"
         (join_data "R1" "receiver")).1 = Some room'
    ∧ (room' = mkRoom ["s1"] []
       ∨ (("r1" ∉ ["s1"]) ∧ room' = mkRoom (["s1"] ++ ["r1"]) [])
       ∨ (("r1" ∉ @nil string) ∧ room' = mkRoom ["s1"] ([] ++ ["r1"]))).
Proof.
  apply (join_only_appends [("R1", mkRoom ["s1"] [])] "r1"
           (join_data "R1" "receiver") "R1" (mkRoom ["s1"] [])).
  reflexivity.
Defined.

(** X7: after a [join_room] as "sender" (as "receiver") with a non-empty
    code the connection is among the senders (the receivers) of the room,
    and the reply says [has_sender] ([has_receiver]). *)
Theorem join_makes_member (reg : registry) (sid : string) (data : payload)
    (code : string) :
  data !! "code" = Some code → code ≠ "" →
  (data !! "type" = Some "sender" →
   ∃ room active has_receiver,
     reg_get code (on_join reg sid data).1 = Some room
     ∧ sid ∈ senders room
     ∧ Emit (ToSid sid)
         (Ev_room_joined "sender joined" "sender" active true has_receiver)
       ∈ (on_join reg sid data).2)
  ∧ (data !! "type" = Some "receiver" →
     ∃ room active has_sender,
       reg_get code (on_join reg sid data).1 = Some room
       ∧ sid ∈ receivers room
       ∧ Emit (ToSid sid)
           (Ev_room_joined "receiver joined" "receiver" active has_sender true)
         ∈ (on_join reg sid data).2).
Proof.
  intros Hc Hcne. split; intros Ht.
  - rewrite (on_join_checked reg sid data code "sender") by done.
    pose proof (room_join_sender_in sid
                  (default (mkRoom [] []) (reg_get code reg))) as Hin.
    eexists _, _, _. split_and!; [apply join_checked_get|done|].
    rewrite join_checked_closed. simpl. unfold joined_reply.
    rewrite !list_truthy_length.
    destruct (senders (room_join sid "sender" _));
      [by apply elem_of_nil in Hin|].
    simpl. right. left.
  - rewrite (on_join_checked reg sid data code "receiver") by done.
    pose proof (room_join_receiver_in sid
                  (default (mkRoom [] []) (reg_get code reg))) as Hin.
    eexists _, _, _. split_and!; [apply join_checked_get|done|].
    rewrite join_checked_closed. simpl. unfold joined_reply.
    rewrite !list_truthy_length.
    destruct (receivers (room_join sid "receiver" _));
      [by apply elem_of_nil in Hin|].
    simpl. rewrite andb_true_r. right. right. left.
Qed.

Lemma join_makes_member_witness :
  (∃ room active has_receiver,
     reg_get "R1" (on_join [] "s1" (join_data "R1" "sender")).1 = Some room
     ∧ "s1" ∈ senders room
     ∧ Emit (ToSid "s1")
         (Ev_room_joined "sender joined" "sender" active true has_receiver)
       ∈ (on_join [] "s1" (join_data "R1" "sender")).2)
  ∧ (∃ room active has_sender,
       reg_get "R1" (on_join [] "r1" (join_data "R1" "receiver")).1 = Some room
       ∧ "r1" ∈ receivers room
       ∧ Emit (ToSid "r1")
           (Ev_room_joined "receiver joined" "receiver" active has_sender true)
         ∈ (on_join [] "r1" (join_data "R1" "receiver")).2).
Proof.
  split.
  - by apply (join_makes_member [] "s1" (join_data "R1" "sender") "R1").
  - by apply (join_makes_member [] "r1" (join_data "R1" "receiver") "R1").
Defined.

(** X8: every join into a room that has a sender and a receiver already
    broadcasts "active" to the room again, whatever non-empty type it
    names, and so does the join of a connection that is a member
    already. *)
Theorem join_active_room_rebroadcasts (reg : registry) (sid : string)
    (data : payload) (code ty : string) (room : Room) :
  data !! "code" = Some code → data !! "type" = Some ty →
  code ≠ "" → ty ≠ "" →
  reg_get code reg = Some room →
  senders room ≠ [] → receivers room ≠ [] →
  Emit (ToGroup code (Some sid))
    (Ev_room_status "active" "Both sender and receiver connected")
  ∈ (on_join reg sid data).2.
Proof.
  intros Hc Ht Hcne Htne Hget Hs Hr.
  rewrite (on_join_checked reg sid data code ty) by done.
  rewrite join_checked_closed, Hget. simpl.
  assert (room_is_active (room_join sid ty room) = true) as ->.
  { unfold room_is_active, room_join. rewrite !list_truthy_length.
    destruct (decide (ty = "sender")); [|destruct (decide (ty = "receiver"))];
      try destruct (bool_decide _); simpl;
      destruct (senders room), (receivers room); done. }
  rewrite elem_of_app. right. right. left.
Qed.

Lemma join_active_room_rebroadcasts_witness :
  Emit (ToGroup "R1" (Some "r1"))
    (Ev_room_status "active" "Both sender and receiver connected")
  ∈ (on_join [("R1", mkRoom ["s1"] ["r1"])] "r1"
       (join_data "R1" "receiver")).2.
Proof.
  by apply (join_active_room_rebroadcasts [("R1", mkRoom ["s1"] ["r1"])] "r1"
              (join_data "R1" "receiver") "R1" "receiver"
              (mkRoom ["s1"] ["r1"])).
Defined.

(** ** Join, then disconnect *)

Lemma remove_first_snoc (x : string) (l : list string) :
  x ∉ l → remove_first x (l ++ [x]) = l.
Proof.
  induction l as [|y l IH]; simpl; [by rewrite decide_True|].
  rewrite not_elem_of_cons. intros [Hne Hl].
  rewrite decide_False by done. by rewrite IH.
Qed.

Lemma room_leave_join sid ty (room : Room) :
  sid ∉ senders room → sid ∉ receivers room →
  room_leave sid (room_join sid ty room) = room.
Proof.
  intros Hs Hr. unfold room_leave, room_join. destruct room as [ss rs].
  simpl in *.
  destruct (decide (ty = "sender")); [|destruct (decide (ty = "receiver"))].
  - rewrite bool_decide_eq_false_2 by done. simpl.
    by rewrite remove_first_snoc, remove_first_notin.
  - rewrite bool_decide_eq_false_2 by done. simpl.
    by rewrite remove_first_snoc, remove_first_notin.
  - simpl. by rewrite !remove_first_notin.
Qed.

Lemma leave_all_app sid (reg1 reg2 : registry) :
  leave_all sid (reg1 ++ reg2) = leave_all sid reg1 ++ leave_all sid reg2.
Proof.
  induction reg1 as [|[k r] reg1 IH]; simpl; [done|].
  destruct (room_empty _); simpl; by rewrite IH.
Qed.

Lemma leave_all_set sid code (room room' : Room) (reg : registry) :
  in_no_room sid reg → no_empty_room reg →
  reg_get code reg = Some room → room_leave sid room' = room →
  leave_all sid (reg_set code room' reg) = reg.
Proof.
  intros Hno Hne Hget Hleave.
  induction reg as [|[k r] reg IH]; simpl in *; [done|].
  assert (in_no_room sid reg) as Hno'
    by (intros c r' Hin; apply (Hno c r'); by right).
  assert (no_empty_room reg) as Hne'
    by (intros c r' Hin; apply (Hne c r'); by right).
  destruct (decide (k = code)) as [->|Hk]; simpl.
  - injection Hget as ->. rewrite Hleave, (Hne code room) by left.
    by rewrite leave_all_id.
  - destruct (Hno k r) as [Hs Hr]; [left|].
    assert (room_leave sid r = r) as ->.
    { unfold room_leave. rewrite !remove_first_notin by done. by destruct r. }
    rewrite (Hne k r) by left. f_equal. by apply IH.
Qed.

(** X9: in a registry without empty rooms, a connection that is in no room
    and joins, whatever the payload, is taken out again by its disconnect:
    the registry is back to what it was before the join. *)
Theorem join_then_disconnect (reg : registry) (sid : string) (data : payload) :
  reachable reg → in_no_room sid reg → no_empty_room reg →
  ∃ effs, handle_disconnect (on_join reg sid data).1 sid = Some (reg, effs).
Proof.
  intros Hwf%reachable_wf Hno Hne.
  rewrite handle_disconnect_closed by apply on_join_wf, Hwf.
  eexists. f_equal. f_equal.
  destruct (on_join_cases reg sid data)
    as [->|(code & ty & _ & _ & _ & _ & ->)]; [by apply leave_all_id|].
  rewrite join_checked_closed. simpl.
  destruct (reg_get code reg) as [room|] eqn:Hget; simpl.
  - apply leave_all_set with room; [done..|].
    destruct (Hno code room) as [Hs Hr]; [by apply reg_get_elem|].
    by apply room_leave_join.
  - rewrite leave_all_app, leave_all_id by done. simpl.
    rewrite room_leave_join by apply not_elem_of_nil.
    simpl. by rewrite app_nil_r.
Qed.

Lemma join_then_disconnect_witness :
  ∃ effs,
    handle_disconnect
      (on_join [("R1", mkRoom ["s1"] [])] "r1" (join_data "R1" "receiver")).1
      "r1"
    = Some ([("R1", mkRoom ["s1"] [])], effs).
Proof.
  apply (join_then_disconnect [("R1", mkRoom ["s1"] [])] "r1"
           (join_data "R1" "receiver")).
  - exists [JoinRoom "s1" (join_data "R1" "sender")].
    eexists. vm_compute. reflexivity.
  - intros code room [= -> ->]%list_elem_of_singleton. simpl.
    split; [|apply not_elem_of_nil].
    rewrite list_elem_of_singleton. discriminate.
  - by intros code room [= -> ->]%list_elem_of_singleton.
Defined.

(** X10: once the only receiver of a room has disconnected, text sent to
    the room is answered with "No receivers in room". *)
Theorem no_relay_after_last_receiver_left (reg reg' : registry)
    (sid sender code text : string) (room : Room) (data : payload) effs :
  reachable reg →
  reg_get code reg = Some room → receivers room = [sid] →
  handle_disconnect reg sid = Some (reg', effs) →
  data !! "code" = Some code → data !! "text" = Some text →
  code ≠ "" → text ≠ "" →
  handle_text reg' sender data
  = (reg', [Emit (ToSid sender) (Ev_error "No receivers in room")]).
Proof.
  intros [Hkeys Hrooms]%reachable_wf Hget Hrecv.
  rewrite handle_disconnect_closed by done. intros [= <- <-].
  intros Hc Ht Hcne Htne.
  unfold handle_text. rewrite Hc, Ht. simpl.
  apply str_truthy_true in Hcne, Htne. rewrite Hcne, Htne. simpl.
  unfold room_has_receivers. rewrite leave_all_get, Hget by done.
  destruct (room_empty _); [done|].
  simpl. rewrite Hrecv. simpl. by rewrite decide_True.
Qed.

Lemma no_relay_after_last_receiver_left_witness :
  handle_text [("R1", mkRoom ["s1"] [])] "s1" (text_data "R1" "hi")
  = ([("R1", mkRoom ["s1"] [])],
     [Emit (ToSid "s1") (Ev_error "No receivers in room")]).
Proof.
  apply (no_relay_after_last_receiver_left
           [("R1", mkRoom ["s1"] ["r1"])] _ "r1" "s1" "R1" "hi"
           (mkRoom ["s1"] ["r1"]) (text_data "R1" "hi") []);
    try done.
  exists [JoinRoom "s1" (join_data "R1" "sender");
          JoinRoom "r1" (join_data "R1" "receiver")].
  eexists. vm_compute. reflexivity.
Defined.

(** ** The reply and the relay agree *)

(** X11: the [has_receiver] flag of the [room_joined] reply tells what the
    next [send_text] to the room gets: the relay when it is true, the error
    "No receivers in room" when it is false. *)
Theorem joined_reply_predicts_relay (reg : registry) (sid sender : string)
    (data tdata : payload) (code ty text : string) :
  data !! "code" = Some code → data !! "type" = Some ty →
  code ≠ "" → ty ≠ "" →
  tdata !! "code" = Some code → tdata !! "text" = Some text → text ≠ "" →
  ∃ active has_sender has_receiver,
    Emit (ToSid sid)
      (Ev_room_joined (ty +:+ " joined") ty active has_sender has_receiver)
    ∈ (on_join reg sid data).2
    ∧ (handle_text (on_join reg sid data).1 sender tdata).2
      = if has_receiver
        then [Emit (ToGroup (code +:+ "_recv") None) (Ev_receive_text tdata)]
        else [Emit (ToSid sender) (Ev_error "No receivers in room")].
Proof.
  intros Hc Ht Hcne Htne Htc Htt Httne.
  rewrite (on_join_checked reg sid data code ty) by done.
  set (room := room_join sid ty (default (mkRoom [] []) (reg_get code reg))).
  exists (room_is_active room), (bool_decide (0 < length (senders room))),
    (bool_decide (0 < length (receivers room))).
  split.
  - rewrite join_checked_closed. simpl. rewrite elem_of_app. right. left.
  - unfold handle_text. rewrite Htc, Htt. simpl.
    apply str_truthy_true in Hcne, Httne. rewrite Hcne, Httne. simpl.
    unfold room_has_receivers. rewrite join_checked_get. fold room.
    rewrite list_truthy_length. by destruct (list_truthy _).
Qed.

Lemma joined_reply_predicts_relay_witness :
  ∃ active has_sender has_receiver,
    Emit (ToSid "s1")
      (Ev_room_joined "sender joined" "sender" active has_sender has_receiver)
    ∈ (on_join [] "s1" (join_data "R1" "sender")).2
    ∧ (handle_text (on_join [] "s1" (join_data "R1" "sender")).1 "s1"
         (text_data "R1" "hi")).2
      = if has_receiver
        then [Emit (ToGroup "R1_recv" None)
                (Ev_receive_text (text_data "R1" "hi"))]
        else [Emit (ToSid "s1") (Ev_error "No receivers in room")].
Proof.
  by apply (joined_reply_predicts_relay [] "s1" "s1" (join_data "R1" "sender")
              (text_data "R1" "hi") "R1" "sender" "hi").
Defined.

(** ** Groups *)

Lemma join_checked_effects_sub (reg : registry) sid code ty sid' group :
  JoinGroup sid' group ∈ join_groups sid code ty →
  JoinGroup sid' group ∈ (join_checked reg sid code ty).2.
Proof. rewrite join_checked_closed. simpl. rewrite elem_of_app. auto. Qed.

Lemma step_members_subscribed (effs0 : list effect) (reg reg' : registry)
    req effs :
  wf reg → members_subscribed effs0 reg → step reg req = Some (reg', effs) →
  members_subscribed (effs0 ++ effs) reg'.
Proof.
  intros Hwf Hm.
  assert (∀ more, members_subscribed (effs0 ++ more) reg) as Hmono.
  { intros more code room x Hin. destruct (Hm code room x Hin) as [Hs Hr].
    rewrite !elem_of_app. naive_solver. }
  destruct req as [sid|sid|sid data|sid data|sid data]; simpl.
  - by intros [= <- <-].
  - rewrite handle_disconnect_closed by apply Hwf. intros [= <- <-].
    intros code room' x (room & Hin & -> & _)%leave_all_elem.
    destruct (Hmono (leave_effects sid reg) code room x Hin) as [Hs Hr].
    simpl. split; intros ?%remove_first_subset; auto.
  - intros [= Heq]. pose proof (f_equal fst Heq) as Hreg.
    pose proof (f_equal snd Heq) as Heffs. simpl in Hreg, Heffs.
    subst reg' effs.
    destruct (on_join_cases reg sid data)
      as [->|(code & ty & Hc & Ht & _ & _ & ->)]; [done|].
    intros k r x [Hin|(-> & -> & Hold)]%join_checked_elem; [by apply Hmono|].
    assert (members_subscribed effs0
              [(code, default (mkRoom [] []) (reg_get code reg))]) as Hm0.
    { intros k' r' y [= -> ->]%list_elem_of_singleton.
      destruct (reg_get code reg) as [room0|]; simpl.
      - by apply Hm, Hold.
      - split; intros []%elem_of_nil. }
    destruct (Hm0 code (default (mkRoom [] []) (reg_get code reg)) x)
      as [Hs Hr]; [left|].
    rewrite !elem_of_app.
    split.
    + intros [?|[-> ->]]%room_join_senders; [auto|].
      right. apply join_checked_effects_sub. left.
    + intros [?|[-> ->]]%room_join_receivers; [naive_solver|].
      split; right; apply join_checked_effects_sub; [left|right; left].
  - intros [= Heq]. pose proof (f_equal fst Heq) as Hreg. simpl in Hreg.
    rewrite handle_text_reg in Hreg. subst reg'. apply Hmono.
  - intros [= Heq]. pose proof (f_equal fst Heq) as Hreg. simpl in Hreg.
    rewrite handle_live_control_reg in Hreg. subst reg'. apply Hmono.
Qed.

Lemma run_members_subscribed (reqs : list request) (effs0 : list effect)
    (reg reg' : registry) effs :
  wf reg → members_subscribed effs0 reg → run reg reqs = Some (reg', effs) →
  members_subscribed (effs0 ++ effs) reg'.
Proof.
  revert effs0 reg effs.
  induction reqs as [|req reqs IH]; intros effs0 reg effs Hwf Hm; simpl.
  - intros [= <- <-]. by rewrite app_nil_r.
  - destruct (step reg req) as [[reg1 effs1]|] eqn:Hstep; [|done].
    destruct (run reg1 reqs) as [[reg2 effs2]|] eqn:Hrun; [|done].
    intros [= <- <-]. rewrite app_assoc.
    eapply IH; [|by eapply step_members_subscribed|done].
    by eapply step_wf.
Qed.

(** X12: whatever the requests served, for every connection listed as a
    receiver of a room the server has asked the transport to subscribe it
    to the room's group and to its [_recv] group, the one the relays go
    to; and for every sender, to the room's group. *)
Theorem members_are_subscribed (reqs : list request) (reg : registry) effs
    (code sid : string) (room : Room) :
  run [] reqs = Some (reg, effs) → reg_get code reg = Some room →
  (sid ∈ senders room → JoinGroup sid code ∈ effs)
  ∧ (sid ∈ receivers room →
     JoinGroup sid code ∈ effs ∧ JoinGroup sid (code +:+ "_recv") ∈ effs).
Proof.
  intros Hrun Hget.
  apply (run_members_subscribed reqs [] [] reg effs wf_nil); [|done|].
  - by intros ??? []%elem_of_nil.
  - by apply reg_get_elem.
Qed.

Lemma members_are_subscribed_witness :
  JoinGroup "r1" "R1"
  ∈ [JoinGroup "r1" "R1"; JoinGroup "r1" "R1_recv";
     Emit (ToSid "r1")
       (Ev_room_joined "receiver joined" "receiver" false false true)]
  ∧ JoinGroup "r1" "R1_recv"
    ∈ [JoinGroup "r1" "R1"; JoinGroup "r1" "R1_recv";
       Emit (ToSid "r1")
         (Ev_room_joined "receiver joined" "receiver" false false true)].
Proof.
  apply (members_are_subscribed [JoinRoom "r1" (join_data "R1" "receiver")]
           [("R1", mkRoom [] ["r1"])] _ "R1" "r1" (mkRoom [] ["r1"]));
    [vm_compute; reflexivity|reflexivity|left].
Defined.

(** X13: the receiver group of room [code] and the general group of the
    room named [code ++ "_recv"] are one and the same group: a connection
    that joins the latter room, as "sender", is subscribed to the very
    group that the text of room [code] is relayed to. *)
Theorem recv_group_is_shared (reg reg0 : registry) (sid sender : string)
    (data tdata : payload) (code text : string) :
  data !! "code" = Some (code +:+ "_recv") → data !! "type" = Some "sender" →
  tdata !! "code" = Some code → tdata !! "text" = Some text →
  code ≠ "" → text ≠ "" → has_receiver reg0 code →
  ∃ group,
    JoinGroup sid group ∈ (on_join reg sid data).2
    ∧ (handle_text reg0 sender tdata).2
      = [Emit (ToGroup group None) (Ev_receive_text tdata)].
Proof.
  intros Hc Ht Htc Htt Hcne Htne Hrecv. exists (code +:+ "_recv"). split.
  - rewrite (on_join_checked reg sid data (code +:+ "_recv") "sender");
      [|done..|by destruct code|done].
    apply join_checked_effects_sub. left.
  - unfold handle_text. rewrite Htc, Htt. simpl.
    apply str_truthy_true in Hcne, Htne. rewrite Hcne, Htne. simpl.
    apply room_has_receivers_spec in Hrecv. by rewrite Hrecv.
Qed.

Lemma recv_group_is_shared_witness :
  ∃ group,
    JoinGroup "x" group ∈ (on_join [] "x" (join_data "R1_recv" "sender")).2
    ∧ (handle_text [("R1", mkRoom ["s1"] ["r1"])] "s1"
         (text_data "R1" "hi")).2
      = [Emit (ToGroup group None) (Ev_receive_text (text_data "R1" "hi"))].
Proof.
  apply (recv_group_is_shared [] [("R1", mkRoom ["s1"] ["r1"])] "x" "s1"
           (join_data "R1_recv" "sender") (text_data "R1" "hi") "R1" "hi");
    try done.
  exists (mkRoom ["s1"] ["r1"]), "r1". split; [reflexivity|left].
Defined.

(** ** Who gets what *)

Lemma disconnect_loop_effects sid keys (reg reg' : registry) effs e :
  disconnect_loop sid keys reg = Some (reg', effs) → e ∈ effs →
  ∃ code, e = sender_left code.
Proof.
  revert reg effs. induction keys as [|k keys IH]; intros reg effs; simpl.
  - intros [= <- <-] []%elem_of_nil.
  - destruct (reg_get k reg) as [room|]; [|done].
    destruct (disconnect_room sid k room reg) as [reg1 effs1] eqn:Hroom.
    destruct (disconnect_loop sid keys reg1) as [[reg2 effs2]|] eqn:Hloop;
      [|done].
    intros [= <- <-] [Hin|Hin]%elem_of_app; [|by eapply IH].
    unfold disconnect_room in Hroom.
    destruct (negb _ && negb _); injection Hroom as _ <-;
      (destruct (_ && _); [|by apply elem_of_nil in Hin]);
      apply list_elem_of_singleton in Hin; by exists k.
Qed.

(** The effects of one request, by shape. *)
Lemma step_effects_shape (reg reg' : registry) req effs e :
  step reg req = Some (reg', effs) → e ∈ effs →
  (∃ group, e = JoinGroup (requester req) group)
  ∨ (∃ msg, e = Emit (ToSid (requester req)) (Ev_error msg))
  ∨ (∃ msg ty a hs hr,
       e = Emit (ToSid (requester req)) (Ev_room_joined msg ty a hs hr))
  ∨ (∃ code, e = active_status (requester req) code)
  ∨ (∃ code, e = sender_left code)
  ∨ (∃ code data,
       e = Emit (ToGroup (recv_group code) None) (Ev_receive_text data))
  ∨ (∃ code data,
       e = Emit (ToGroup (recv_group code) None)
             (Ev_receive_live_control data)).
Proof.
  destruct req as [sid|sid|sid data|sid data|sid data]; simpl.
  - intros [= <- <-] []%elem_of_nil.
  - intros Hloop Hin. right. right. right. right. left.
    by eapply disconnect_loop_effects.
  - intros [= Heq]. pose proof (f_equal snd Heq) as Heffs. simpl in Heffs.
    subst effs.
    destruct (on_join_cases reg sid data)
      as [->|(code & ty & _ & _ & _ & _ & ->)].
    + intros ->%list_elem_of_singleton. right. left. eauto.
    + rewrite join_checked_closed. simpl.
      rewrite elem_of_app, elem_of_cons. intros [Hin|[->|Hin]].
      * left. unfold join_groups in Hin.
        destruct (decide (ty = "sender"));
          [|destruct (decide (ty = "receiver"))];
          repeat (apply elem_of_cons in Hin as [->|Hin]; [eauto|]);
          by apply elem_of_nil in Hin.
      * right. right. left. unfold joined_reply. eauto 10.
      * right. right. right. left.
        destruct (room_is_active _); [|by apply elem_of_nil in Hin].
        apply list_elem_of_singleton in Hin as ->. eauto.
  - intros [= Heq]. pose proof (f_equal snd Heq) as Heffs. simpl in Heffs.
    subst effs. unfold handle_text.
    destruct (data !! "code") as [code|]; [|by intros []%elem_of_nil].
    destruct (_ && _); [|by intros []%elem_of_nil].
    destruct (room_has_receivers reg code); intros ->%list_elem_of_singleton;
      [do 5 right; left; eauto|right; left; eauto].
  - intros [= Heq]. pose proof (f_equal snd Heq) as Heffs. simpl in Heffs.
    subst effs. unfold handle_live_control.
    destruct (data !! "code") as [code|], (data !! "control") as [ctl|];
      try (intros ->%list_elem_of_singleton; right; left; eauto).
    destruct (_ || _);
      [intros ->%list_elem_of_singleton; right; left; eauto|].
    destruct (room_has_receivers reg code); intros ->%list_elem_of_singleton;
      [do 6 right; eauto|right; left; eauto].
Qed.

(** X14: replies are private.  Whatever the request, an event sent to a
    single connection goes to the connection the request came from, and
    an [error] is never sent to a group. *)
Theorem replies_go_to_requester (reg reg' : registry) (req : request) effs
    (to : target) (ev : event) :
  step reg req = Some (reg', effs) → Emit to ev ∈ effs →
  (∀ sid, to = ToSid sid → sid = requester req)
  ∧ (∀ msg, ev = Ev_error msg → to = ToSid (requester req)).
Proof.
  intros Hstep Hin.
  destruct (step_effects_shape reg reg' req effs _ Hstep Hin)
    as [(?&[=])|[(?&[= -> ->])|[(?&?&?&?&?&[= -> ->])|[(?&[= -> ->])|
        [(?&[= -> ->])|[(?&?&[= -> ->])|(?&?&[= -> ->])]]]]]];
    split; intros; congruence.
Qed.

Lemma replies_go_to_requester_witness :
  (∀ sid, ToSid "s1" = ToSid sid → sid = "s1")
  ∧ (∀ msg, Ev_error "No receivers in room" = Ev_error msg →
       ToSid "s1" = ToSid "s1").
Proof.
  apply (replies_go_to_requester [] [] (SendText "s1" (text_data "R1" "hi"))
           [Emit (ToSid "s1") (Ev_error "No receivers in room")]);
    [reflexivity|left].
Defined.

(** X15: text and live control are only ever emitted to the [_recv] group
    of a room, without [skip_sid]: never to a single connection and never
    to the general group of the room the request names. *)
Theorem relays_go_to_recv_groups (reg reg' : registry) (req : request) effs
    (to : target) (ev : event) :
  step reg req = Some (reg', effs) → Emit to ev ∈ effs →
  (∃ data, ev = Ev_receive_text data ∨ ev = Ev_receive_live_control data) →
  ∃ code, to = ToGroup (code +:+ "_recv") None.
Proof.
  intros Hstep Hin (data & Hev).
  destruct (step_effects_shape reg reg' req effs _ Hstep Hin)
    as [(?&[=])|[(?&[= -> ->])|[(?&?&?&?&?&[= -> ->])|[(?&[= -> ->])|
        [(?&[= -> ->])|[(code&?&[= -> ->])|(code&?&[= -> ->])]]]]]];
    try (destruct Hev; congruence); by exists code.
Qed.

Lemma relays_go_to_recv_groups_witness :
  ∃ code, ToGroup "R1_recv" None = ToGroup (code +:+ "_recv") None.
Proof.
  apply (relays_go_to_recv_groups [("R1", mkRoom [] ["r1"])]
           [("R1", mkRoom [] ["r1"])]
           (SendText "s1" (text_data "R1" "hi"))
           [Emit (ToGroup "R1_recv" None)
              (Ev_receive_text (text_data "R1" "hi"))]
           _ (Ev_receive_text (text_data "R1" "hi")));
    [reflexivity|left|eauto].
Defined.

(** ** The static front end *)

(** X16: [serve_frontend] aborts with 404 on every path that starts with
    "socket.io", whatever is on disk and without calling
    [send_from_directory].  On any other path its outcome is that of
    [send_from_directory] on the static folder: called with the requested
    path when the path is non-empty and [os.path.exists] holds of the
    static folder joined with it, and with "index.html" otherwise, so also
    for the empty path and for every path that does not exist. *)
Theorem serve_frontend_answers {R : Type} (abort : nat → R)
    (send_from_directory : string → string → R) (static_folder : string)
    (path_exists : string → bool) (path : string) :
  (String.prefix "socket.io" path = true →
   serve_frontend abort send_from_directory static_folder path_exists path
   = abort 404)
  ∧ (String.prefix "socket.io" path = false →
     path ≠ "" → path_exists (os_path_join static_folder path) = true →
     serve_frontend abort send_from_directory static_folder path_exists path
     = send_from_directory static_folder path)
  ∧ (String.prefix "socket.io" path = false →
     path = "" ∨ path_exists (os_path_join static_folder path) = false →
     serve_frontend abort send_from_directory static_folder path_exists path
     = send_from_directory static_folder "index.html").
Proof.
  unfold serve_frontend. split_and!; intros ->.
  - done.
  - intros Hpath%str_truthy_true Hex. by rewrite Hpath, Hex.
  - intros [->|Hex]; [done|]. rewrite Hex. by rewrite andb_false_r.
Qed.

Lemma serve_frontend_answers_witness :
  serve_frontend (R := nat + string * string) inl (λ d p, inr (d, p))
    "/app/frontend" (λ p, bool_decide (p = "/app/frontend/app.js"))
    "socket.io/?EIO=4"
  = inl 404
  ∧ serve_frontend (R := nat + string * string) inl (λ d p, inr (d, p))
      "/app/frontend" (λ p, bool_decide (p = "/app/frontend/app.js"))
      "app.js"
    = inr ("/app/frontend", "app.js")
  ∧ serve_frontend (R := nat + string * string) inl (λ d p, inr (d, p))
      "/app/frontend" (λ p, bool_decide (p = "/app/frontend/app.js"))
      "about"
    = inr ("/app/frontend", "index.html").
Proof.
  split_and!.
  - by apply (serve_frontend_answers (R := nat + string * string) inl
                (λ d p, inr (d, p)) "/app/frontend"
                (λ p, bool_decide (p = "/app/frontend/app.js"))
                "socket.io/?EIO=4").
  - by apply (serve_frontend_answers (R := nat + string * string) inl
                (λ d p, inr (d, p)) "/app/frontend"
                (λ p, bool_decide (p = "/app/frontend/app.js")) "app.js").
  - apply (serve_frontend_answers (R := nat + string * string) inl
             (λ d p, inr (d, p)) "/app/frontend"
             (λ p, bool_decide (p = "/app/frontend/app.js")) "about");
      [done|by right].
Defined.

(** ** Rooms are created lazily *)

(** X17: a [join_room] keeps the rooms of the registry and their order; it
    adds one room, last, exactly when it passes the guard and names a code
    that has no room yet. *)
Theorem join_creates_at_most_one_room (reg : registry) (sid : string)
    (data : payload) :
  (∀ code, data !! "code" = Some code → code ≠ "" →
           ¬ field_missing data "type" → reg_get code reg = None →
           reg_keys (on_join reg sid data).1 = reg_keys reg ++ [code])
  ∧ ((field_missing data "code" ∨ field_missing data "type"
      ∨ ∃ code, data !! "code" = Some code ∧ is_Some (reg_get code reg)) →
     reg_keys (on_join reg sid data).1 = reg_keys reg).
Proof.
  split.
  - intros code Hc Hcne Hty Hnone. unfold field_missing in Hty.
    destruct (data !! "type") as [ty|] eqn:Ht; [|naive_solver].
    rewrite (on_join_checked reg sid data code ty); [|done..|naive_solver].
    rewrite join_checked_closed, Hnone. simpl.
    unfold reg_keys. by rewrite fmap_app.
  - intros Hcase.
    destruct (on_join_cases reg sid data)
      as [->|(code & ty & Hc & Ht & Hcne & Htne & ->)]; [done|].
    unfold field_missing in Hcase. rewrite Hc, Ht in Hcase.
    destruct Hcase as [[?|?]|[[?|?]|(code' & [= <-] & Hsome)]];
      try naive_solver.
    rewrite join_checked_closed. simpl.
    destruct Hsome as [room Hget]. rewrite Hget.
    apply reg_keys_set. by rewrite Hget.
Qed.

Lemma join_creates_at_most_one_room_witness :
  reg_keys (on_join [("R1", mkRoom ["s1"] [])] "c1"
              (join_data "R2" "sender")).1
  = reg_keys [("R1", mkRoom ["s1"] [])] ++ ["R2"]
  ∧ reg_keys (on_join [("R1", mkRoom ["s1"] [])] "c1"
                (join_data "R1" "receiver")).1
    = reg_keys [("R1", mkRoom ["s1"] [])].
Proof.
  split.
  - apply (join_creates_at_most_one_room [("R1", mkRoom ["s1"] [])] "c1"
             (join_data "R2" "sender")); try done.
    intros [Hm|Hm]; vm_compute in Hm; discriminate Hm.
  - apply (join_creates_at_most_one_room [("R1", mkRoom ["s1"] [])] "c1"
             (join_data "R1" "receiver")).
    right. right. exists "R1". split; [reflexivity|]. by eexists.
Defined.
